(** * Chat subsystem of HouseHunter: services/chat_service.py, the chat
    websocket route of routes/chat_routes.py and the chat models of
    models/chat.py, as a shallow embedding.

    The relational store is a record of tables (lists of rows).  A service
    method of [ChatService] runs inside one [AsyncSession]: it is a state and
    error computation over the session's view of the store.  Python exceptions
    are the [inl] branch; on an exception the session is rolled back, so the
    partial state is dropped.  A caller that commits replaces the committed
    store by the session state.

    Values that the code draws from its environment ([uuid.uuid4()],
    [datetime.now(timezone.utc)], the database's [func.now()], whether a
    flush or a commit or a publish reaches its server) are read from an [Env]
    record given to the operation. *)

From Stdlib Require Import List Ascii String NArith ZArith Bool Lia.
From Stdlib Require Import Sorting.Permutation Sorting.Sorted.
Import ListNotations.
Open Scope string_scope.
Open Scope Z_scope.
Open Scope list_scope.

(** ** Data model (models/chat.py, models/property.py, models/user.py) *)

(** A [uuid.UUID] is represented by its canonical string. *)
Definition UUID := string.

(** Timestamps ([DateTime(timezone=True)]) as microseconds since the epoch. *)
Definition Time := Z.

Record User := mkUser { user_id : UUID }.

Record Property := mkProperty {
  property_id : UUID;
  prop_lister_id : option UUID   (* Property.lister_id *)
}.

Record Chat := mkChat {
  chat_id : UUID;
  chat_property_id : option UUID;   (* nullable: None for direct chats *)
  initiator_id : UUID;
  property_user_id : UUID;
  chat_created_at : Time;
  chat_updated_at : Time
}.

Record ChatMessage := mkChatMessage {
  message_id : UUID;
  message_chat_id : UUID;
  sender_id : UUID;
  content : string;
  is_read : bool;
  message_created_at : Time
}.

(** The tables the chat code reads and writes. *)
Record DB := mkDB {
  db_users : list UUID;
  db_properties : list Property;
  db_chats : list Chat;
  db_messages : list ChatMessage
}.

(** Exceptions of services/exceptions.py the chat code raises, and the
    SQLAlchemy / pydantic / json errors it meets. *)
Inductive Exn :=
| ChatNotFoundException
| UnauthorizedException
| PropertyNotFoundException
| InvalidRequestException
| UserNotFoundException
| ChatException
| MultipleResultsFound       (* sqlalchemy.exc, from scalar_one_or_none *)
| ValidationError            (* pydantic *)
| JSONDecodeError.

(** [status_code] defaults of the exception classes (ServiceException). *)
Definition status_code (e : Exn) : Z :=
  match e with
  | ChatNotFoundException => 404
  | UnauthorizedException => 403
  | PropertyNotFoundException => 404
  | InvalidRequestException => 400
  | UserNotFoundException => 404
  | ChatException => 400
  | MultipleResultsFound | ValidationError | JSONDecodeError => 500
  end.

(** Values the code takes from its environment during one operation. *)
Record Env := mkEnv {
  env_uuid4 : UUID;        (* default=uuid.uuid4 of a new row's id *)
  env_now : Time;          (* datetime.now(timezone.utc) in Python *)
  env_db_now : Time;       (* server_default=func.now() of the database *)
  env_flush_ok : bool;     (* the flush / UPDATE reaches the database *)
  env_commit_ok : bool;    (* db_session.commit() succeeds *)
  env_publish_ok : bool    (* redis_client.publish succeeds *)
}.

(** ** The session monad *)

Definition M (A : Type) := DB -> Exn + (A * DB).

Definition ret {A} (a : A) : M A := fun s => inr (a, s).
Definition raise {A} (e : Exn) : M A := fun _ => inl e.
Definition bind {A B} (m : M A) (k : A -> M B) : M B :=
  fun s => match m s with inl e => inl e | inr (a, s') => k a s' end.
Definition get_db : M DB := fun s => inr (s, s).
Definition put_db (s : DB) : M unit := fun _ => inr (tt, s).

Notation "x <- m ;; k" := (bind m (fun x => k))
  (at level 61, m at next level, right associativity).

(** [Result.scalar_one_or_none()]: no row, one row, or an error for more. *)
Definition scalar_one_or_none {A} (rows : list A) : M (option A) :=
  match rows with
  | [] => ret None
  | [x] => ret (Some x)
  | _ => raise MultipleResultsFound
  end.

Definition opt_eqb (a b : option UUID) : bool :=
  match a, b with
  | Some x, Some y => String.eqb x y
  | None, None => true
  | _, _ => false
  end.

(** ** ChatService (services/chat_service.py) *)

(** [get_chat_by_id]: select by primary key, then the participation check. *)
Definition get_chat_by_id (cid : UUID) (requesting_user : User) : M Chat :=
  s <- get_db ;;
  r <- scalar_one_or_none (filter (fun c => String.eqb (chat_id c) cid) (db_chats s)) ;;
  match r with
  | None => raise ChatNotFoundException
  | Some chat =>
      if String.eqb (user_id requesting_user) (initiator_id chat)
         || String.eqb (user_id requesting_user) (property_user_id chat)
      then ret chat
      else raise UnauthorizedException
  end.

(** flush of an INSERT into [chats]: the primary key must be new. *)
Definition flush_insert_chat (env : Env) (c : Chat) : M unit :=
  s <- get_db ;;
  if env_flush_ok env && negb (existsb (fun c' => String.eqb (chat_id c') (chat_id c)) (db_chats s))
  then put_db (mkDB (db_users s) (db_properties s) (db_chats s ++ [c]) (db_messages s))
  else raise ChatException.

(** The WHERE clause of the existing-chat query of [find_or_create_chat]. *)
Definition listing_chat_match (pid initiator lister : UUID) (c : Chat) : bool :=
  opt_eqb (chat_property_id c) (Some pid)
  && ((String.eqb (initiator_id c) initiator && String.eqb (property_user_id c) lister)
      || (String.eqb (initiator_id c) lister && String.eqb (property_user_id c) initiator)).

Definition find_or_create_chat (env : Env) (pid : UUID) (initiator_user : User) : M Chat :=
  s <- get_db ;;
  prop <- scalar_one_or_none (filter (fun p => String.eqb (property_id p) pid) (db_properties s)) ;;
  match prop with
  | None => raise PropertyNotFoundException
  | Some p =>
    match prop_lister_id p with
    | None => raise InvalidRequestException
    | Some lister =>
      if String.eqb (user_id initiator_user) lister then raise InvalidRequestException
      else
        existing <- scalar_one_or_none
                      (filter (listing_chat_match pid (user_id initiator_user) lister) (db_chats s)) ;;
        match existing with
        | Some c => ret c
        | None =>
            let new_chat := mkChat (env_uuid4 env) (Some pid) (user_id initiator_user) lister
                                   (env_db_now env) (env_db_now env) in
            _ <- flush_insert_chat env new_chat ;;
            ret new_chat
        end
    end
  end.

(** The WHERE clause of the existing-chat query of [find_or_create_direct_chat]. *)
Definition direct_chat_match (initiator recipient : UUID) (c : Chat) : bool :=
  opt_eqb (chat_property_id c) None
  && ((String.eqb (initiator_id c) initiator && String.eqb (property_user_id c) recipient)
      || (String.eqb (initiator_id c) recipient && String.eqb (property_user_id c) initiator)).

Definition find_or_create_direct_chat (env : Env) (initiator_user : User) (recipient_user_id : UUID)
  : M Chat :=
  s <- get_db ;;
  (* session.get(User, recipient_user_id) *)
  if negb (existsb (String.eqb recipient_user_id) (db_users s)) then raise UserNotFoundException
  else if String.eqb (user_id initiator_user) recipient_user_id then raise InvalidRequestException
  else
    existing <- scalar_one_or_none
                  (filter (direct_chat_match (user_id initiator_user) recipient_user_id) (db_chats s)) ;;
    match existing with
    | Some c => ret c
    | None =>
        let new_chat := mkChat (env_uuid4 env) None (user_id initiator_user) recipient_user_id
                               (env_db_now env) (env_db_now env) in
        _ <- flush_insert_chat env new_chat ;;
        ret new_chat
    end.

(** [chat.updated_at = ...] on the session's chat object, written at flush. *)
Definition set_chat_updated_at (cid : UUID) (t : Time) (cs : list Chat) : list Chat :=
  map (fun c => if String.eqb (chat_id c) cid
                then mkChat (chat_id c) (chat_property_id c) (initiator_id c)
                            (property_user_id c) (chat_created_at c) t
                else c) cs.

Record CreateChatMessageRequest := mkCreateChatMessageRequest { req_content : string }.

(** [add_message_to_chat]: the new message row and the chat's update are
    written by the same flush of the same session. *)
Definition add_message_to_chat (env : Env) (cid : UUID) (sender : User)
  (message_data : CreateChatMessageRequest) : M ChatMessage :=
  chat <- get_chat_by_id cid sender ;;
  let new_message := mkChatMessage (env_uuid4 env) (chat_id chat) (user_id sender)
                                   (req_content message_data) false (env_db_now env) in
  s <- get_db ;;
  if env_flush_ok env
     && negb (existsb (fun m => String.eqb (message_id m) (message_id new_message)) (db_messages s))
  then
    _ <- put_db (mkDB (db_users s) (db_properties s)
                      (set_chat_updated_at (chat_id chat) (env_now env) (db_chats s))
                      (db_messages s ++ [new_message])) ;;
    ret new_message
  else raise ChatException.

(** [ceil(total_items / per_page) if per_page > 0 and total_items > 0 else 0]. *)
Definition total_pages_of (total per_page : Z) : Z :=
  if (0 <? per_page) && (0 <? total) then (total + per_page - 1) / per_page else 0.

(** [get_chat_messages].  SQL's [ORDER BY created_at] is the database's
    choice: [db_sort] is the order in which the database returns the rows;
    [order_by_created] below is what SQL guarantees about it.  The route
    passes only [page >= 1] and [1 <= per_page <= 100] (GetMessagesQueryArgs),
    where OFFSET and LIMIT are the natural numbers [Z.to_nat] gives. *)
Definition get_chat_messages (db_sort : list ChatMessage -> list ChatMessage)
  (cid : UUID) (requesting_user : User) (page per_page : Z)
  : M (list ChatMessage * Z * Z) :=
  _ <- get_chat_by_id cid requesting_user ;;
  s <- get_db ;;
  let offset := (page - 1) * per_page in
  let rows := filter (fun m => String.eqb (message_chat_id m) cid) (db_messages s) in
  let total_items := Z.of_nat (List.length rows) in
  let items := firstn (Z.to_nat per_page) (skipn (Z.to_nat offset) (db_sort rows)) in
  ret (items, total_items, total_pages_of total_items per_page).

(** What [ORDER BY ChatMessage.created_at] promises: the same rows, in
    non-decreasing [created_at]; the order among equal timestamps is free. *)
Definition created_le (a b : ChatMessage) : Prop := message_created_at a <= message_created_at b.

Definition order_by_created (rows out : list ChatMessage) : Prop :=
  Permutation rows out /\ Sorted created_le out.

(** Two orders a database may return for [ORDER BY created_at]: insertion
    sort placing a row before the rows of equal timestamp ([tie_first]) or
    after them. *)
Definition created_before (tie_first : bool) (x y : ChatMessage) : bool :=
  if tie_first then message_created_at x <=? message_created_at y
  else message_created_at x <? message_created_at y.

Fixpoint insert_by_created (tie_first : bool) (x : ChatMessage) (l : list ChatMessage)
  : list ChatMessage :=
  match l with
  | [] => [x]
  | y :: l' =>
      if created_before tie_first x y
      then x :: l
      else y :: insert_by_created tie_first x l'
  end.

Definition sort_by_created (tie_first : bool) (l : list ChatMessage) : list ChatMessage :=
  fold_right (insert_by_created tie_first) [] l.

(** The WHERE clause of the bulk UPDATE of [mark_messages_as_read]. *)
Definition unread_received (cid : UUID) (u : User) (m : ChatMessage) : bool :=
  String.eqb (message_chat_id m) cid && negb (String.eqb (sender_id m) (user_id u))
  && negb (is_read m).

Definition set_read (m : ChatMessage) : ChatMessage :=
  mkChatMessage (message_id m) (message_chat_id m) (sender_id m) (content m) true
                (message_created_at m).

(** [UPDATE chat_messages SET is_read = true WHERE ...] on one row. *)
Definition mark_one (cid : UUID) (u : User) (m : ChatMessage) : ChatMessage :=
  if unread_received cid u m then set_read m else m.

Definition mark_messages_as_read (env : Env) (cid : UUID) (u : User) : M nat :=
  _ <- get_chat_by_id cid u ;;
  s <- get_db ;;
  if negb (env_flush_ok env) then raise ChatException
  else
    let updated_count := List.length (filter (unread_received cid u) (db_messages s)) in
    let msgs := map (mark_one cid u) (db_messages s) in
    let chats := if Nat.ltb 0 updated_count
                 then set_chat_updated_at cid (env_now env) (db_chats s)
                 else db_chats s in
    _ <- put_db (mkDB (db_users s) (db_properties s) chats msgs) ;;
    ret updated_count.

(** ** The websocket route (routes/chat_routes.py, [chat_ws]) *)

(** A decoded JSON document. *)
#[warnings="-register-all"]
Inductive Json :=
| JNull
| JBool (b : bool)
| JNum (z : Z)
| JStr (s : string)
| JArr (l : list Json)
| JObj (kv : list (string * Json)).

(** A frame from [websocket.receive()]: either text that [json.loads]
    rejects, or text that decodes to a JSON document. *)
Inductive RawFrame :=
| Undecodable
| Decodes (j : Json).

Definition json_loads (raw : RawFrame) : Exn + Json :=
  match raw with
  | Undecodable => inl JSONDecodeError
  | Decodes j => inr j
  end.

(** Python's dict of a JSON object keeps the last value of a repeated key. *)
Definition dict_get (k : string) (kv : list (string * Json)) : option Json :=
  fold_left (fun acc p => if String.eqb (fst p) k then Some (snd p) else acc) kv None.

(** A JSON string is held as its UTF-8 encoding.  Python's [len] of the
    decoded [str], which pydantic's [min_length] and [max_length] measure,
    counts code points: the bytes that are not continuation bytes
    ([0b10xxxxxx]). *)
Fixpoint char_count (s : string) : nat :=
  match s with
  | EmptyString => 0
  | String a r =>
      if N.eqb (N.land (N_of_ascii a) 192) 128 then char_count r else S (char_count r)
  end.

(** [CreateChatMessageRequest.model_validate]: a dict whose [content] is a
    string with [min_length=1, max_length=2000] characters; other keys are
    ignored. *)
Definition model_validate (data : Json) : Exn + CreateChatMessageRequest :=
  match data with
  | JObj kv =>
      match dict_get "content" kv with
      | Some (JStr s) =>
          if (1 <=? Z.of_nat (char_count s)) && (Z.of_nat (char_count s) <=? 2000)
          then inr (mkCreateChatMessageRequest s)
          else inl ValidationError
      | _ => inl ValidationError
      end
  | _ => inl ValidationError
  end.

Definition topic (cid : UUID) : string := String.append "chat:" cid.

(** Observable effects of the receiver duty. *)
Inductive Event :=
| EvCommitted (m : ChatMessage)             (* db_session.commit() returned *)
| EvPublish (t : string) (payload : ChatMessage)   (* redis_client.publish *)
| EvWarning.                                (* current_app.logger.warning *)

(** One iteration of the [while True] loop of [websocket_receiver_task]:
    [committed] is the committed store; every exception of the body is
    caught by its [except] clauses and logged. *)
Definition receive_frame (env : Env) (cid : UUID) (requesting_user : User)
  (committed : DB) (raw : RawFrame) : DB * list Event :=
  match json_loads raw with
  | inl _ => (committed, [EvWarning])
  | inr data =>
    match model_validate data with
    | inl _ => (committed, [EvWarning])
    | inr message_data =>
      match add_message_to_chat env cid requesting_user message_data committed with
      | inl _ => (committed, [EvWarning])
      | inr (new_message, s') =>
          if env_commit_ok env then
            (s', EvCommitted new_message ::
                 (if env_publish_ok env then [EvPublish (topic cid) new_message]
                  else [EvWarning]))
          else (committed, [EvWarning])
      end
    end
  end.

(** The receiver loop over the frames of a session, each with its environment. *)
Fixpoint websocket_receiver_task (cid : UUID) (requesting_user : User) (committed : DB)
  (frames : list (Env * RawFrame)) : DB * list Event :=
  match frames with
  | [] => (committed, [])
  | (env, raw) :: rest =>
      let '(s1, ev1) := receive_frame env cid requesting_user committed raw in
      let '(s2, ev2) := websocket_receiver_task cid requesting_user s1 rest in
      (s2, ev1 ++ ev2)
  end.

(** Outcome of steps 1-3 of [chat_ws], before the duties start. *)
Record WsSetup := mkWsSetup {
  ws_accepted : bool;               (* websocket.accept() was called *)
  ws_error : option Exn;            (* exception caught by the handler *)
  ws_response : option (string * Z) (* response sent instead of accepting *)
}.

Definition chat_ws_setup (redis_available : bool) (current : option User) (cid : UUID) (s : DB)
  : WsSetup :=
  if negb redis_available then mkWsSetup false None (Some ("Chat service unavailable", 503))
  else
    match current with
    | None => mkWsSetup false None (Some ("Authentication required", 401))
    | Some u =>
        match get_chat_by_id cid u s with
        (* [get_chat_by_id] raises rather than returning [None], so the
           [return "Chat not found or access denied", 403] branch is never
           reached.  The exception is caught by [except (AuthorizationException,
           ChatNotFoundException)] or [except Exception], whose body reads
           [websocket.accepted]; Quart's websocket has no such attribute, so
           the handler raises [AttributeError] and Quart answers the
           unaccepted connection with its [InternalServerError], HTTP 500. *)
        | inl e => mkWsSetup false (Some e) (Some ("Internal Server Error", 500))
        | inr _ => mkWsSetup true None None
        end
    end.

(** Publications are allowed only after the commit of the same message. *)
Fixpoint published_after_commit (cid : UUID) (seen : list ChatMessage) (tr : list Event) : Prop :=
  match tr with
  | [] => True
  | EvCommitted m :: r => published_after_commit cid (m :: seen) r
  | EvPublish t m :: r => t = topic cid /\ In m seen /\ published_after_commit cid seen r
  | EvWarning :: r => published_after_commit cid seen r
  end.

(** A frame the receiver drops at parsing or validation. *)
Definition frame_rejected (raw : RawFrame) : bool :=
  match json_loads raw with
  | inl _ => true
  | inr data => match model_validate data with inl _ => true | inr _ => false end
  end.

(** [get_user_chats]: the chats where the user is either participant,
    [ORDER BY updated_at DESC] (the database's order is [db_sort], see
    [order_by_updated_desc]), then OFFSET and LIMIT as in
    [get_chat_messages].  The rows are distinct entities, so
    [.unique()] keeps them all. *)
Definition get_user_chats (db_sort : list Chat -> list Chat) (user : User) (page per_page : Z)
  : M (list Chat * Z * Z) :=
  s <- get_db ;;
  let offset := (page - 1) * per_page in
  let rows := filter (fun c => String.eqb (initiator_id c) (user_id user)
                               || String.eqb (property_user_id c) (user_id user)) (db_chats s) in
  let total_items := Z.of_nat (List.length rows) in
  let items := firstn (Z.to_nat per_page) (skipn (Z.to_nat offset) (db_sort rows)) in
  ret (items, total_items, total_pages_of total_items per_page).

(** What [ORDER BY desc(Chat.updated_at)] promises. *)
Definition updated_ge (a b : Chat) : Prop := chat_updated_at b <= chat_updated_at a.

Definition order_by_updated_desc (rows out : list Chat) : Prop :=
  Permutation rows out /\ Sorted updated_ge out.

(** An order a database may return for [ORDER BY updated_at DESC]:
    insertion sort, a row going before the rows it is not older than. *)
Fixpoint insert_by_updated (x : Chat) (l : list Chat) : list Chat :=
  match l with
  | [] => [x]
  | y :: l' => if chat_updated_at y <=? chat_updated_at x then x :: l
               else y :: insert_by_updated x l'
  end.

Definition sort_by_updated_desc (l : list Chat) : list Chat :=
  fold_right insert_by_updated [] l.

(** The messages whose commit a trace records, in order. *)
Definition committed_messages (tr : list Event) : list ChatMessage :=
  flat_map (fun ev => match ev with EvCommitted m => [m] | _ => [] end) tr.

(** ** Sample data *)

Definition userA := mkUser "A".
Definition userB := mkUser "B".
Definition userE := mkUser "E".
Definition chat1 := mkChat "C1" (Some "L100") "A" "B" 0 0.
Definition db0 : DB :=
  mkDB ["A"; "B"; "E"] [mkProperty "L100" (Some "B"); mkProperty "L200" None] [chat1] [].
Definition env_ok (u : UUID) (t : Time) : Env := mkEnv u t t true true true.
Definition hi := Decodes (JObj [("content", JStr "hi")]).
Definition empty_frame := Decodes (JObj [("content", JStr "")]).

Definition msg1 := mkChatMessage "M1" "C1" "A" "hi" false 5.
Definition msg2 := mkChatMessage "M2" "C1" "B" "yo" false 5.
Definition db_tie := mkDB ["A"; "B"] [] [chat1] [msg1; msg2].

Definition db_two : DB :=
  mkDB ["A"; "B"; "E"] [] [chat1; mkChat "D1" None "E" "A" 3 9; mkChat "D2" None "B" "E" 4 4] [].


Example receive_hi :
  receive_frame (env_ok "M1" 5) "C1" userA db0 hi =
  (mkDB ["A"; "B"; "E"] [mkProperty "L100" (Some "B"); mkProperty "L200" None]
        [mkChat "C1" (Some "L100") "A" "B" 0 5] [mkChatMessage "M1" "C1" "A" "hi" false 5],
   [EvCommitted (mkChatMessage "M1" "C1" "A" "hi" false 5);
    EvPublish "chat:C1" (mkChatMessage "M1" "C1" "A" "hi" false 5)]).
Proof. reflexivity. Qed.

Example receive_empty : receive_frame (env_ok "M1" 5) "C1" userA db0 empty_frame = (db0, [EvWarning]).
Proof. reflexivity. Qed.

(** ** Lemmas on the session monad *)

Ltac unfold_monad :=
  unfold scalar_one_or_none, bind, get_db, put_db, ret, raise in *.

Lemma get_chat_by_id_state cid u s c s' :
  get_chat_by_id cid u s = inr (c, s') -> s' = s /\ chat_id c = cid /\ In c (db_chats s)
  /\ (user_id u = initiator_id c \/ user_id u = property_user_id c).
Proof.
  unfold get_chat_by_id; unfold_monad; cbv beta iota.
  destruct (filter _ (db_chats s)) as [|x [|y l]] eqn:Hf; try discriminate.
  assert (Hin : In x (filter (fun c => String.eqb (chat_id c) cid) (db_chats s)))
    by (rewrite Hf; left; reflexivity).
  apply filter_In in Hin as [Hin Hid]; apply String.eqb_eq in Hid.
  destruct (String.eqb (user_id u) (initiator_id x)) eqn:E1;
  destruct (String.eqb (user_id u) (property_user_id x)) eqn:E2; simpl;
    try discriminate; intros H; injection H as <- <-;
    repeat split; auto;
    [left | left | right]; apply String.eqb_eq; assumption.
Qed.

Lemma add_message_to_chat_state env cid u req s m s' :
  add_message_to_chat env cid u req s = inr (m, s') ->
  db_messages s' = db_messages s ++ [m]
  /\ db_chats s' = set_chat_updated_at cid (env_now env) (db_chats s)
  /\ db_users s' = db_users s /\ db_properties s' = db_properties s
  /\ m = mkChatMessage (env_uuid4 env) cid (user_id u) (req_content req) false (env_db_now env).
Proof.
  unfold add_message_to_chat. unfold bind at 1.
  destruct (get_chat_by_id cid u s) as [e|[c s1]] eqn:G; [discriminate|].
  apply get_chat_by_id_state in G as (-> & Hid & _).
  unfold_monad. rewrite Hid.
  destruct (_ && _); [|discriminate].
  intros H; inversion H; subst; simpl; repeat split; reflexivity.
Qed.

(** One loop iteration: either nothing happened and a warning was logged,
    or the message was committed first and published (or the publish failed)
    afterwards. *)
Lemma receive_frame_cases env cid u s raw :
  receive_frame env cid u s raw = (s, [EvWarning])
  \/ exists m s', receive_frame env cid u s raw =
                  (s', EvCommitted m :: (if env_publish_ok env then [EvPublish (topic cid) m]
                                         else [EvWarning]))
                  /\ db_messages s' = db_messages s ++ [m] /\ env_commit_ok env = true.
Proof.
  unfold receive_frame.
  destruct (json_loads raw); [left; reflexivity|].
  destruct (model_validate j); [left; reflexivity|].
  destruct (add_message_to_chat env cid u c s) as [e|[m s']] eqn:A; [left; reflexivity|].
  destruct (env_commit_ok env) eqn:C; [|left; reflexivity].
  right; exists m, s'; split; [reflexivity|].
  apply add_message_to_chat_state in A as (Hm & _); auto.
Qed.

Lemma published_after_commit_split cid seen tr :
  published_after_commit cid seen tr ->
  forall pre t m post, tr = pre ++ EvPublish t m :: post ->
  t = topic cid /\ (In m seen \/ In (EvCommitted m) pre).
Proof.
  revert seen; induction tr as [|ev tr IH]; intros seen H pre t m post E.
  - destruct pre; discriminate.
  - destruct pre as [|ev' pre]; simpl in E; inversion E; subst.
    + simpl in H. destruct H as (-> & Hm & _). auto.
    + destruct ev'; simpl in H.
      * destruct (IH _ H pre t m post eq_refl) as (-> & [[<-|Hs]|Hp]); simpl; auto.
      * destruct H as (_ & _ & H).
        destruct (IH _ H pre t m post eq_refl) as (-> & [Hs|Hp]); simpl; auto.
      * destruct (IH _ H pre t m post eq_refl) as (-> & [Hs|Hp]); simpl; auto.
Qed.

Lemma websocket_receiver_task_ok cid u frames : forall s seen,
  published_after_commit cid seen (snd (websocket_receiver_task cid u s frames))
  /\ (forall m, In (EvCommitted m) (snd (websocket_receiver_task cid u s frames)) ->
      In m (db_messages (fst (websocket_receiver_task cid u s frames))))
  /\ incl (db_messages s) (db_messages (fst (websocket_receiver_task cid u s frames))).
Proof.
  induction frames as [|[env raw] rest IH]; intros s seen; simpl.
  - split; [exact I|split; [intros m []|apply incl_refl]].
  - destruct (receive_frame_cases env cid u s raw) as [E | (m & s1 & E & Hm & _)];
      rewrite E.
    + destruct (websocket_receiver_task cid u s rest) as [s2 ev2] eqn:W.
      destruct (IH s seen) as (IH1 & IH2 & IH3); rewrite W in IH1, IH2, IH3; simpl in *.
      split; [exact IH1|split; [|exact IH3]].
      intros m' [H|H]; [discriminate|auto].
    + destruct (websocket_receiver_task cid u s1 rest) as [s2 ev2] eqn:W.
      destruct (IH s1 (m :: seen)) as (IH1 & IH2 & IH3); rewrite W in IH1, IH2, IH3; simpl in *.
      split; [|split].
      * destruct (env_publish_ok env); simpl; auto.
      * intros m' [H|H].
        -- injection H as <-. apply IH3. rewrite Hm. apply in_or_app; right; left; reflexivity.
        -- apply IH2. destruct (env_publish_ok env); simpl in H;
             destruct H as [H|H]; try discriminate; exact H.
      * intros x Hx. apply IH3. rewrite Hm. apply in_or_app; left; exact Hx.
Qed.

Lemma add_message_to_chat_ok env cid u req s c :
  get_chat_by_id cid u s = inr (c, s) -> env_flush_ok env = true ->
  ~ In (env_uuid4 env) (map message_id (db_messages s)) ->
  add_message_to_chat env cid u req s =
  inr (mkChatMessage (env_uuid4 env) cid (user_id u) (req_content req) false (env_db_now env),
       mkDB (db_users s) (db_properties s) (set_chat_updated_at cid (env_now env) (db_chats s))
            (db_messages s ++ [mkChatMessage (env_uuid4 env) cid (user_id u) (req_content req)
                                             false (env_db_now env)])).
Proof.
  intros G F N. pose proof (get_chat_by_id_state _ _ _ _ _ G) as (_ & Hid & _).
  unfold add_message_to_chat. unfold bind at 1. rewrite G. unfold_monad. rewrite Hid, F.
  destruct (existsb _ (db_messages s)) eqn:Ex; [|reflexivity].
  exfalso; apply N. apply existsb_exists in Ex as (x & Hx & Heq).
  apply String.eqb_eq in Heq. simpl in Heq. rewrite <- Heq. apply in_map; exact Hx.
Qed.

(** C1 (inbound duty): in the event trace of the receiver loop, every
    publication of a message is on the topic ["chat:" ++ conversationId] and
    is preceded by the commit of that same message, which is in the committed
    store at the end of the loop. *)
Theorem inbound_persist_before_publish (cid : UUID) (u : User) (s : DB)
  (frames : list (Env * RawFrame)) :
  forall pre t m post,
    snd (websocket_receiver_task cid u s frames) = pre ++ EvPublish t m :: post ->
    t = topic cid /\ In (EvCommitted m) pre
    /\ In m (db_messages (fst (websocket_receiver_task cid u s frames))).
Proof.
  intros pre t m post E.
  destruct (websocket_receiver_task_ok cid u frames s []) as (H1 & H2 & _).
  destruct (published_after_commit_split _ _ _ H1 pre t m post E) as (Ht & [[]|Hp]).
  split; [exact Ht|split; [exact Hp|]].
  apply H2. rewrite E. apply in_or_app; left; exact Hp.
Qed.

Lemma inbound_persist_before_publish_witness :
  snd (websocket_receiver_task "C1" userA db0 [(env_ok "M1" 5, hi)]) =
    [EvCommitted (mkChatMessage "M1" "C1" "A" "hi" false 5)]
    ++ EvPublish "chat:C1" (mkChatMessage "M1" "C1" "A" "hi" false 5) :: []
  /\ "chat:C1" = topic "C1".
Proof.
  split; [reflexivity|].
  apply (inbound_persist_before_publish "C1" userA db0 [(env_ok "M1" 5, hi)]
           [EvCommitted (mkChatMessage "M1" "C1" "A" "hi" false 5)] "chat:C1"
           (mkChatMessage "M1" "C1" "A" "hi" false 5) []).
  reflexivity.
Defined.

(** C3 (malformed frames): a frame that fails JSON decoding or content
    validation (among them every frame whose [content] has 0 or more than
    2000 characters) leaves the committed store, hence every chat's [updated_at],
    unchanged, logs a warning, publishes nothing, and the loop goes on with
    the next frame on the same store; a following valid frame from a
    participant is then committed and published. *)
Theorem malformed_frame_dropped (env : Env) (cid : UUID) (u : User) (s : DB) (raw : RawFrame)
  (rest : list (Env * RawFrame)) :
  (forall kv str, dict_get "content" kv = Some (JStr str) ->
     (char_count str = 0%nat \/ 2000 < Z.of_nat (char_count str)) ->
     frame_rejected (Decodes (JObj kv)) = true) /\
  (frame_rejected raw = true ->
     receive_frame env cid u s raw = (s, [EvWarning])
     /\ websocket_receiver_task cid u s ((env, raw) :: rest)
        = (fst (websocket_receiver_task cid u s rest),
           EvWarning :: snd (websocket_receiver_task cid u s rest))
     /\ (forall env' raw' d req c,
          json_loads raw' = inr d -> model_validate d = inr req ->
          get_chat_by_id cid u s = inr (c, s) ->
          env_flush_ok env' = true -> env_commit_ok env' = true -> env_publish_ok env' = true ->
          ~ In (env_uuid4 env') (map message_id (db_messages s)) ->
          exists m s', websocket_receiver_task cid u s [(env, raw); (env', raw')]
                       = (s', [EvWarning; EvCommitted m; EvPublish (topic cid) m])
                       /\ content m = req_content req /\ In m (db_messages s'))).
Proof.
  split.
  - intros kv str Hc Hlen. unfold frame_rejected, json_loads, model_validate.
    rewrite Hc.
    destruct Hlen as [H0|H0].
    + rewrite H0. reflexivity.
    + destruct (1 <=? _); simpl; [|reflexivity].
      replace (Z.of_nat (char_count str) <=? 2000) with false by (symmetry; apply Z.leb_gt; lia).
      reflexivity.
  - intros Hr.
    assert (Hs : receive_frame env cid u s raw = (s, [EvWarning])).
    { unfold frame_rejected in Hr; unfold receive_frame.
      destruct (json_loads raw); [reflexivity|].
      destruct (model_validate j); [reflexivity|discriminate]. }
    split; [exact Hs|split].
    + simpl. rewrite Hs.
      destruct (websocket_receiver_task cid u s rest); reflexivity.
    + intros env' raw' d req c Hj Hv G F C P N.
      eexists; eexists; split.
      * simpl. rewrite Hs. unfold receive_frame at 1. rewrite Hj, Hv.
        rewrite (add_message_to_chat_ok env' cid u req s c G F N), C, P. reflexivity.
      * split; [reflexivity|]. simpl. apply in_or_app; right; left; reflexivity.
Qed.

Lemma malformed_frame_dropped_witness :
  frame_rejected empty_frame = true /\
  receive_frame (env_ok "M0" 4) "C1" userA db0 empty_frame = (db0, [EvWarning]).
Proof.
  split; [reflexivity|].
  exact (proj1 (proj2 (malformed_frame_dropped (env_ok "M0" 4) "C1" userA db0 empty_frame [])
                 eq_refl)).
Defined.

Lemma set_chat_updated_at_spec cid t cs c :
  In c (set_chat_updated_at cid t cs) -> chat_id c = cid -> chat_updated_at c = t.
Proof.
  unfold set_chat_updated_at. intros Hin Hid.
  apply in_map_iff in Hin as (c0 & <- & _).
  destruct (String.eqb (chat_id c0) cid) eqn:E; [reflexivity|].
  simpl in Hid. rewrite Hid, String.eqb_refl in E. discriminate.
Qed.

Lemma set_chat_updated_at_in cid t cs c :
  In c cs -> chat_id c = cid ->
  In (mkChat (chat_id c) (chat_property_id c) (initiator_id c) (property_user_id c)
             (chat_created_at c) t) (set_chat_updated_at cid t cs).
Proof.
  intros Hin Hid. unfold set_chat_updated_at.
  apply in_map_iff. exists c. rewrite Hid, String.eqb_refl. split; [reflexivity|exact Hin].
Qed.

(** C2, as stated, fails: with the application clock at 10.5 s and the
    database clock at 11 s when the insert runs (SQLite evaluates
    CURRENT_TIMESTAMP at the INSERT, after [datetime.now] was read), the
    chat's [updated_at] is not the message's [created_at] and is smaller. *)
Lemma append_updated_at_cex :
  exists m s', add_message_to_chat (mkEnv "M1" 10500000 11000000 true true true) "C1" userA
                 (mkCreateChatMessageRequest "hi") db0 = inr (m, s')
  /\ exists c, In c (db_chats s') /\ chat_id c = "C1"
     /\ chat_updated_at c <> message_created_at m
     /\ chat_updated_at c < message_created_at m.
Proof.
  exists (mkChatMessage "M1" "C1" "A" "hi" false 11000000),
    (mkDB ["A"; "B"; "E"] [mkProperty "L100" (Some "B"); mkProperty "L200" None]
          [mkChat "C1" (Some "L100") "A" "B" 0 10500000]
          [mkChatMessage "M1" "C1" "A" "hi" false 11000000]).
  split; [reflexivity|].
  exists (mkChat "C1" (Some "L100") "A" "B" 0 10500000).
  split; [left; reflexivity|]. simpl. split; [reflexivity|]. split; lia.
Qed.

(** C2 (amended): a successful [add_message_to_chat] produces one session
    state holding both writes: the new unread message, whose [created_at] is
    the database clock at insert, appended to the messages, and the
    conversation's [updated_at] set to the application clock reading
    [datetime.now(timezone.utc)]; nothing else of the store changes. *)
Theorem append_message_writes_together (env : Env) (cid : UUID) (u : User)
  (req : CreateChatMessageRequest) (s : DB) (m : ChatMessage) (s' : DB) :
  add_message_to_chat env cid u req s = inr (m, s') ->
  message_created_at m = env_db_now env /\ is_read m = false /\ message_chat_id m = cid
  /\ db_messages s' = db_messages s ++ [m]
  /\ (exists c, In c (db_chats s') /\ chat_id c = cid)
  /\ (forall c, In c (db_chats s') -> chat_id c = cid -> chat_updated_at c = env_now env)
  /\ db_users s' = db_users s /\ db_properties s' = db_properties s.
Proof.
  intros A.
  assert (G : exists c0, get_chat_by_id cid u s = inr (c0, s)).
  { unfold add_message_to_chat, bind at 1 in A.
    destruct (get_chat_by_id cid u s) as [e|[c0 s0]] eqn:G; [discriminate|].
    exists c0. pose proof (get_chat_by_id_state _ _ _ _ _ G) as (-> & _). reflexivity. }
  destruct G as (c0 & G).
  pose proof (get_chat_by_id_state _ _ _ _ _ G) as (_ & Hid & Hin & _).
  apply add_message_to_chat_state in A as (Hm & Hc & Hu & Hp & ->).
  repeat split; auto.
  - eexists; split; [rewrite Hc; apply (set_chat_updated_at_in _ _ _ c0 Hin Hid)|exact Hid].
  - intros c Hc' Hid'. rewrite Hc in Hc'. exact (set_chat_updated_at_spec _ _ _ _ Hc' Hid').
Qed.

Lemma append_message_writes_together_witness :
  message_created_at (mkChatMessage "M1" "C1" "A" "hi" false 5) = env_db_now (env_ok "M1" 5).
Proof.
  exact (proj1 (append_message_writes_together (env_ok "M1" 5) "C1" userA
                  (mkCreateChatMessageRequest "hi") db0 _ _ eq_refl)).
Defined.

Lemma direct_chat_match_sym x y c : direct_chat_match x y c = direct_chat_match y x c.
Proof.
  unfold direct_chat_match. f_equal. apply orb_comm.
Qed.

Lemma listing_chat_match_new pid ini lister i t1 t2 :
  listing_chat_match pid ini lister (mkChat i (Some pid) ini lister t1 t2) = true.
Proof.
  unfold listing_chat_match; simpl. rewrite !String.eqb_refl. reflexivity.
Qed.

(** C4: a successful [find_or_create_chat] for a listing and a user leaves
    a store in which the same call, with any fresh identifier, finds and
    returns that very conversation without creating another. *)
Theorem find_or_create_chat_twice (env1 env2 : Env) (pid : UUID) (u : User) (s : DB)
  (c : Chat) (s1 : DB) :
  find_or_create_chat env1 pid u s = inr (c, s1) ->
  find_or_create_chat env2 pid u s1 = inr (c, s1).
Proof.
  unfold find_or_create_chat at 1; unfold_monad; cbv beta iota.
  destruct (filter _ (db_properties s)) as [|p [|p' ps]] eqn:Hp; try discriminate.
  destruct (prop_lister_id p) as [lister|] eqn:Hl; try discriminate.
  destruct (String.eqb (user_id u) lister) eqn:Hself; try discriminate.
  destruct (filter (listing_chat_match pid (user_id u) lister) (db_chats s))
    as [|c0 [|c' cs]] eqn:Hc; try discriminate.
  - unfold flush_insert_chat; unfold_monad; cbv beta iota.
    destruct (_ && _); [|discriminate].
    intros H; injection H as <- <-.
    unfold find_or_create_chat; unfold_monad; simpl.
    rewrite Hp; simpl; rewrite Hl, Hself.
    rewrite filter_app, Hc; simpl.
    rewrite listing_chat_match_new. reflexivity.
  - intros H; injection H as <- <-.
    unfold find_or_create_chat; unfold_monad; simpl.
    rewrite Hp; simpl; rewrite Hl, Hself, Hc. reflexivity.
Qed.

Lemma find_or_create_chat_twice_witness :
  find_or_create_chat (env_ok "C2" 7) "L100" userE db0 =
    inr (mkChat "C2" (Some "L100") "E" "B" 7 7,
         mkDB ["A"; "B"; "E"] [mkProperty "L100" (Some "B"); mkProperty "L200" None]
              [chat1; mkChat "C2" (Some "L100") "E" "B" 7 7] [])
  /\ find_or_create_chat (env_ok "C3" 8) "L100" userE
       (mkDB ["A"; "B"; "E"] [mkProperty "L100" (Some "B"); mkProperty "L200" None]
             [chat1; mkChat "C2" (Some "L100") "E" "B" 7 7] [])
     = inr (mkChat "C2" (Some "L100") "E" "B" 7 7,
            mkDB ["A"; "B"; "E"] [mkProperty "L100" (Some "B"); mkProperty "L200" None]
                 [chat1; mkChat "C2" (Some "L100") "E" "B" 7 7] []).
Proof.
  split; [reflexivity|].
  apply (find_or_create_chat_twice (env_ok "C2" 7) (env_ok "C3" 8) "L100" userE db0).
  reflexivity.
Defined.

Lemma in_users_existsb x l : In x l -> existsb (String.eqb x) l = true.
Proof.
  intros H. apply existsb_exists. exists x. split; [exact H|apply String.eqb_refl].
Qed.

Lemma direct_chat_match_new ini r i t1 t2 :
  direct_chat_match ini r (mkChat i None ini r t1 t2) = true.
Proof.
  unfold direct_chat_match; simpl. rewrite !String.eqb_refl. reflexivity.
Qed.

(** C5: the existing-chat filter of [find_or_create_direct_chat] does not
    depend on which user is the initiator; and once [(A, B)] has succeeded,
    [(B, A)] on the resulting store returns the same conversation and
    changes nothing. *)
Theorem direct_chat_symmetric (env1 env2 : Env) (a b : User) (s : DB) (c : Chat) (s1 : DB) :
  (forall c', direct_chat_match (user_id a) (user_id b) c'
              = direct_chat_match (user_id b) (user_id a) c') /\
  (In (user_id a) (db_users s) ->
   find_or_create_direct_chat env1 a (user_id b) s = inr (c, s1) ->
   find_or_create_direct_chat env2 b (user_id a) s1 = inr (c, s1)).
Proof.
  split; [intros; apply direct_chat_match_sym|].
  intros Ha.
  assert (Hf : forall cs, filter (direct_chat_match (user_id b) (user_id a)) cs
                          = filter (direct_chat_match (user_id a) (user_id b)) cs)
    by (intros cs; apply filter_ext; intros; apply direct_chat_match_sym).
  unfold find_or_create_direct_chat at 1; unfold_monad; cbv beta iota.
  destruct (negb (existsb (String.eqb (user_id b)) (db_users s))); [discriminate|].
  destruct (String.eqb (user_id a) (user_id b)) eqn:Hself; [discriminate|].
  assert (Hself' : String.eqb (user_id b) (user_id a) = false)
    by (rewrite String.eqb_sym; exact Hself).
  destruct (filter (direct_chat_match (user_id a) (user_id b)) (db_chats s))
    as [|c0 [|c' cs]] eqn:Hc; try discriminate.
  - unfold flush_insert_chat; unfold_monad; cbv beta iota.
    destruct (_ && _); [|discriminate].
    intros H; injection H as <- <-.
    unfold find_or_create_direct_chat; unfold_monad; simpl.
    rewrite (in_users_existsb _ _ Ha), Hself'; simpl.
    rewrite Hf, filter_app, Hc; simpl. rewrite direct_chat_match_new. reflexivity.
  - intros H; injection H as <- <-.
    unfold find_or_create_direct_chat; unfold_monad; simpl.
    rewrite (in_users_existsb _ _ Ha), Hself'; simpl. rewrite Hf, Hc. reflexivity.
Qed.

Lemma direct_chat_symmetric_witness :
  find_or_create_direct_chat (env_ok "C2" 7) userA "E" db0 =
    inr (mkChat "C2" None "A" "E" 7 7,
         mkDB ["A"; "B"; "E"] [mkProperty "L100" (Some "B"); mkProperty "L200" None]
              [chat1; mkChat "C2" None "A" "E" 7 7] [])
  /\ find_or_create_direct_chat (env_ok "C3" 8) userE "A"
       (mkDB ["A"; "B"; "E"] [mkProperty "L100" (Some "B"); mkProperty "L200" None]
             [chat1; mkChat "C2" None "A" "E" 7 7] [])
     = inr (mkChat "C2" None "A" "E" 7 7,
            mkDB ["A"; "B"; "E"] [mkProperty "L100" (Some "B"); mkProperty "L200" None]
                 [chat1; mkChat "C2" None "A" "E" 7 7] []).
Proof.
  split; [reflexivity|].
  apply (proj2 (direct_chat_symmetric (env_ok "C2" 7) (env_ok "C3" 8) userA userE db0 _ _));
    [simpl; auto|reflexivity].
Defined.

Lemma NoDup_map_inj {A B} (f : A -> B) l x y :
  NoDup (map f l) -> In x l -> In y l -> f x = f y -> x = y.
Proof.
  induction l as [|z l IH]; simpl; intros Hn Hx Hy E; [contradiction|].
  inversion Hn as [|? ? Hnot Hn']; subst.
  destruct Hx as [<-|Hx], Hy as [<-|Hy]; auto.
  - exfalso; apply Hnot. rewrite E. apply in_map; exact Hy.
  - exfalso; apply Hnot. rewrite <- E. apply in_map; exact Hx.
Qed.

(** C10: [find_or_create_direct_chat] returns only a conversation with no
    listing, and every listing-bound conversation of the store (primary keys
    distinct) is a different conversation that is still there afterwards. *)
Theorem direct_chat_never_listing (env : Env) (a : User) (rid : UUID) (s : DB) (c : Chat)
  (s1 : DB) :
  NoDup (map chat_id (db_chats s)) ->
  find_or_create_direct_chat env a rid s = inr (c, s1) ->
  chat_property_id c = None /\ In c (db_chats s1) /\
  (forall l, In l (db_chats s) -> chat_property_id l <> None ->
             chat_id l <> chat_id c /\ In l (db_chats s1)).
Proof.
  intros Hnd.
  unfold find_or_create_direct_chat at 1; unfold_monad; cbv beta iota.
  destruct (negb (existsb (String.eqb rid) (db_users s))); [discriminate|].
  destruct (String.eqb (user_id a) rid); [discriminate|].
  destruct (filter (direct_chat_match (user_id a) rid) (db_chats s))
    as [|c0 [|c' cs]] eqn:Hc; try discriminate.
  - unfold flush_insert_chat; unfold_monad; cbv beta iota.
    destruct (env_flush_ok env && _) eqn:Fl; [|discriminate].
    apply andb_prop in Fl as [_ Fr]. apply negb_true_iff in Fr. simpl in Fr.
    intros H; injection H as <- <-. simpl.
    split; [reflexivity|split; [apply in_or_app; right; left; reflexivity|]].
    intros l Hl _. split; [|apply in_or_app; left; exact Hl].
    intros E. assert (Ex : existsb (fun c' => String.eqb (chat_id c') (env_uuid4 env)) (db_chats s)
                          = true) by (apply existsb_exists; exists l; split;
                                      [exact Hl|apply String.eqb_eq; exact E]).
    rewrite Ex in Fr; discriminate.
  - intros H; injection H as <- <-.
    assert (Hin : In c0 (filter (direct_chat_match (user_id a) rid) (db_chats s)))
      by (rewrite Hc; left; reflexivity).
    apply filter_In in Hin as [Hin Hm].
    assert (Hp : chat_property_id c0 = None).
    { unfold direct_chat_match in Hm. apply andb_prop in Hm as [Hm _].
      destruct (chat_property_id c0); [discriminate|reflexivity]. }
    split; [exact Hp|split; [exact Hin|]].
    intros l Hl Hlp. split; [|exact Hl].
    intros E. apply Hlp. rewrite (NoDup_map_inj chat_id _ l c0 Hnd Hl Hin E). exact Hp.
Qed.

Lemma direct_chat_never_listing_witness :
  NoDup (map chat_id (db_chats db0)) /\
  chat_property_id (mkChat "C2" None "A" "B" 7 7) = None.
Proof.
  assert (Hnd : NoDup (map chat_id (db_chats db0))) by (simpl; constructor; [auto|constructor]).
  split; [exact Hnd|].
  exact (proj1 (direct_chat_never_listing (env_ok "C2" 7) userA "B" db0 _ _ Hnd eq_refl)).
Defined.

Lemma filter_chat_id_unique cid cs c :
  NoDup (map chat_id cs) -> In c cs -> chat_id c = cid ->
  filter (fun c' => String.eqb (chat_id c') cid) cs = [c].
Proof.
  induction cs as [|x cs IH]; simpl; intros Hn Hin Hid; [contradiction|].
  apply NoDup_cons_iff in Hn as [Hnot Hn'].
  destruct Hin as [->|Hin].
  - rewrite Hid, String.eqb_refl. f_equal. subst cid.
    assert (Hnone : forall y, In y cs -> String.eqb (chat_id y) (chat_id c) = false).
    { intros y Hy. apply String.eqb_neq. intros E. apply Hnot. rewrite <- E. apply in_map; exact Hy. }
    clear - Hnone. induction cs as [|y cs IH]; simpl; [reflexivity|].
    rewrite Hnone by (left; reflexivity). apply IH. intros z Hz; apply Hnone; right; exact Hz.
  - destruct (String.eqb (chat_id x) cid) eqn:E.
    + exfalso; apply Hnot. apply String.eqb_eq in E. rewrite E, <- Hid. apply in_map; exact Hin.
    + apply IH; auto.
Qed.

Lemma filter_chat_id_none cid cs :
  (forall c, In c cs -> chat_id c <> cid) ->
  filter (fun c' => String.eqb (chat_id c') cid) cs = [].
Proof.
  induction cs as [|x cs IH]; simpl; intros H; [reflexivity|].
  destruct (String.eqb (chat_id x) cid) eqn:E.
  - apply String.eqb_eq in E. exfalso; apply (H x); auto.
  - apply IH. intros c Hc; apply H; right; exact Hc.
Qed.

(** C6: for a missing conversation, [get_chat_by_id] and [get_chat_messages]
    raise [ChatNotFoundException] (404); for an existing conversation
    (primary keys distinct) and a user who is neither participant they raise
    [UnauthorizedException] (403).  The websocket set-up never accepts such a
    connection, but in both cases answers HTTP 500, not 403: its exception
    handlers fail on [websocket.accepted]. *)
Theorem access_gate (db_sort : list ChatMessage -> list ChatMessage) (cid : UUID) (u : User)
  (s : DB) (page per_page : Z) :
  status_code ChatNotFoundException = 404 /\ status_code UnauthorizedException = 403 /\
  ((forall c, In c (db_chats s) -> chat_id c <> cid) ->
     get_chat_by_id cid u s = inl ChatNotFoundException
     /\ get_chat_messages db_sort cid u page per_page s = inl ChatNotFoundException
     /\ chat_ws_setup true (Some u) cid s
        = mkWsSetup false (Some ChatNotFoundException) (Some ("Internal Server Error", 500))) /\
  (forall c, NoDup (map chat_id (db_chats s)) -> In c (db_chats s) -> chat_id c = cid ->
     user_id u <> initiator_id c -> user_id u <> property_user_id c ->
     get_chat_by_id cid u s = inl UnauthorizedException
     /\ get_chat_messages db_sort cid u page per_page s = inl UnauthorizedException
     /\ chat_ws_setup true (Some u) cid s
        = mkWsSetup false (Some UnauthorizedException) (Some ("Internal Server Error", 500))).
Proof.
  assert (Hgate : forall e, get_chat_by_id cid u s = inl e ->
            get_chat_by_id cid u s = inl e
            /\ get_chat_messages db_sort cid u page per_page s = inl e
            /\ chat_ws_setup true (Some u) cid s
               = mkWsSetup false (Some e) (Some ("Internal Server Error", 500))).
  { intros e G. split; [exact G|split].
    - unfold get_chat_messages, bind at 1. rewrite G. reflexivity.
    - unfold chat_ws_setup. simpl. rewrite G. reflexivity. }
  split; [reflexivity|split; [reflexivity|split]].
  - intros Hnone. apply Hgate.
    unfold get_chat_by_id; unfold_monad. rewrite (filter_chat_id_none cid _ Hnone). reflexivity.
  - intros c Hnd Hin Hid H1 H2. apply Hgate.
    unfold get_chat_by_id; unfold_monad. rewrite (filter_chat_id_unique cid _ c Hnd Hin Hid).
    apply String.eqb_neq in H1, H2. rewrite H1, H2. reflexivity.
Qed.

Lemma access_gate_witness :
  get_chat_messages (fun l => l) "C1" userE 1 50 db0 = inl UnauthorizedException /\
  chat_ws_setup true (Some userE) "C1" db0
  = mkWsSetup false (Some UnauthorizedException) (Some ("Internal Server Error", 500)).
Proof.
  destruct (proj2 (proj2 (proj2 (access_gate (fun l => l) "C1" userE db0 1 50))) chat1)
    as (_ & H1 & H2).
  - simpl; constructor; [auto|constructor].
  - left; reflexivity.
  - reflexivity.
  - discriminate.
  - discriminate.
  - exact (conj H1 H2).
Defined.

(** C6 fails at the live channel: a non-participant's connection attempt is
    not accepted, but it is answered 500, not Forbidden (403), and with the
    same response as an attempt on a conversation that does not exist. *)
Lemma access_gate_ws_cex :
  get_chat_by_id "C1" userE db0 = inl UnauthorizedException
  /\ ws_accepted (chat_ws_setup true (Some userE) "C1" db0) = false
  /\ ws_response (chat_ws_setup true (Some userE) "C1" db0) = Some ("Internal Server Error", 500)
  /\ ws_response (chat_ws_setup true (Some userE) "C9" db0)
     = ws_response (chat_ws_setup true (Some userE) "C1" db0)
  /\ get_chat_by_id "C9" userE db0 = inl ChatNotFoundException.
Proof. repeat split; reflexivity. Qed.

Lemma filter_set_chat_updated_at cid cid' t cs :
  filter (fun c => String.eqb (chat_id c) cid) (set_chat_updated_at cid' t cs)
  = set_chat_updated_at cid' t (filter (fun c => String.eqb (chat_id c) cid) cs).
Proof.
  induction cs as [|x cs IH]; simpl; [reflexivity|].
  destruct (String.eqb (chat_id x) cid') eqn:E1; simpl;
    destruct (String.eqb (chat_id x) cid) eqn:E2; simpl; rewrite ?IH, ?E1; reflexivity.
Qed.

(** The participation check only reads the chats' ids and participants. *)
Lemma get_chat_by_id_after_update cid u s c cid' t users props ms :
  get_chat_by_id cid u s = inr (c, s) ->
  exists c', get_chat_by_id cid u (mkDB users props (set_chat_updated_at cid' t (db_chats s)) ms)
             = inr (c', mkDB users props (set_chat_updated_at cid' t (db_chats s)) ms).
Proof.
  unfold get_chat_by_id; unfold_monad; cbv beta iota; simpl.
  rewrite filter_set_chat_updated_at.
  destruct (filter _ (db_chats s)) as [|x [|y l]]; simpl; try discriminate.
  destruct (String.eqb (chat_id x) cid'); simpl;
    destruct (String.eqb (user_id u) (initiator_id x) || String.eqb (user_id u) (property_user_id x));
    try discriminate; intros _; eexists; reflexivity.
Qed.

Lemma get_chat_by_id_msgs cid u s c users props ms :
  get_chat_by_id cid u s = inr (c, s) ->
  get_chat_by_id cid u (mkDB users props (db_chats s) ms)
  = inr (c, mkDB users props (db_chats s) ms).
Proof.
  unfold get_chat_by_id; unfold_monad; cbv beta iota; simpl.
  destruct (filter _ (db_chats s)) as [|x [|y l]]; simpl; try discriminate.
  destruct (_ || _); try discriminate. intros H; injection H; intros; subst; reflexivity.
Qed.

Lemma mark_one_done cid u m : unread_received cid u (mark_one cid u m) = false.
Proof.
  unfold mark_one. destruct (unread_received cid u m) eqn:E; [|exact E].
  unfold unread_received, set_read; simpl. rewrite andb_false_r. reflexivity.
Qed.

Lemma mark_one_noop cid u m : unread_received cid u m = false -> mark_one cid u m = m.
Proof. unfold mark_one; intros ->; reflexivity. Qed.

(** C7: for a participant, [mark_messages_as_read] sets [is_read] exactly on
    the messages of the chat not sent by the caller (those already read stay
    as they are; every other message is untouched), returns the number of
    rows the UPDATE matched, sets the chat's [updated_at] only when that
    number is positive, and a second call returns 0 and changes nothing. *)
Theorem mark_read_spec (env env' : Env) (cid : UUID) (u : User) (s : DB) (c : Chat) :
  get_chat_by_id cid u s = inr (c, s) -> env_flush_ok env = true -> env_flush_ok env' = true ->
  let n := List.length (filter (unread_received cid u) (db_messages s)) in
  exists s', mark_messages_as_read env cid u s = inr (n, s')
  /\ Forall2 (fun m m' => if String.eqb (message_chat_id m) cid
                             && negb (String.eqb (sender_id m) (user_id u))
                          then m' = set_read m /\ is_read m' = true
                          else m' = m)
             (db_messages s) (db_messages s')
  /\ db_chats s' = (if Nat.ltb 0 n then set_chat_updated_at cid (env_now env) (db_chats s)
                    else db_chats s)
  /\ mark_messages_as_read env' cid u s' = inr (0%nat, s').
Proof.
  intros G F F' n.
  set (msgs := map (mark_one cid u) (db_messages s)).
  set (chats := if Nat.ltb 0 n then set_chat_updated_at cid (env_now env) (db_chats s)
                else db_chats s).
  exists (mkDB (db_users s) (db_properties s) chats msgs).
  split; [|split; [|split]].
  - unfold mark_messages_as_read. unfold bind at 1. rewrite G. unfold_monad. rewrite F. reflexivity.
  - simpl. unfold msgs. clear. induction (db_messages s) as [|m ms IH]; simpl; constructor; auto.
    unfold mark_one, unread_received.
    destruct (String.eqb (message_chat_id m) cid && negb (String.eqb (sender_id m) (user_id u)));
      simpl; [|reflexivity].
    destruct (is_read m) eqn:R; simpl.
    + destruct m; simpl in *; subst; split; reflexivity.
    + split; reflexivity.
  - reflexivity.
  - assert (Hz : filter (unread_received cid u) msgs = []).
    { unfold msgs. clear. induction (db_messages s) as [|m ms IH]; simpl; [reflexivity|].
      rewrite mark_one_done. exact IH. }
    assert (Hm : map (mark_one cid u) msgs = msgs).
    { unfold msgs. clear. induction (db_messages s) as [|m ms IH]; simpl; [reflexivity|].
      rewrite (mark_one_noop _ _ _ (mark_one_done cid u m)). f_equal; exact IH. }
    assert (G' : exists c', get_chat_by_id cid u (mkDB (db_users s) (db_properties s) chats msgs)
                            = inr (c', mkDB (db_users s) (db_properties s) chats msgs)).
    { unfold chats. destruct (Nat.ltb 0 n).
      - apply (get_chat_by_id_after_update _ _ _ _ _ _ _ _ _ G).
      - eexists; apply (get_chat_by_id_msgs _ _ _ _ _ _ _ G). }
    destruct G' as (c' & G').
    unfold mark_messages_as_read. unfold bind at 1. rewrite G'. unfold_monad. rewrite F'.
    simpl. rewrite Hz. simpl. rewrite Hm. reflexivity.
Qed.

Lemma mark_read_spec_witness :
  mark_messages_as_read (env_ok "X" 9) "C1" userB
    (mkDB ["A"; "B"; "E"] [] [chat1]
          [mkChatMessage "M1" "C1" "A" "hi" false 5; mkChatMessage "M2" "C1" "B" "yo" false 6])
  = inr (1%nat, mkDB ["A"; "B"; "E"] [] [mkChat "C1" (Some "L100") "A" "B" 0 9]
          [mkChatMessage "M1" "C1" "A" "hi" true 5; mkChatMessage "M2" "C1" "B" "yo" false 6]).
Proof.
  pose proof (mark_read_spec (env_ok "X" 9) (env_ok "Y" 10) "C1" userB
              (mkDB ["A"; "B"; "E"] [] [chat1]
                    [mkChatMessage "M1" "C1" "A" "hi" false 5;
                     mkChatMessage "M2" "C1" "B" "yo" false 6]) chat1 eq_refl eq_refl eq_refl) as W.
  cbv zeta in W. destruct W as (s' & H & _).
  rewrite H. vm_compute in H. injection H as <-. reflexivity.
Defined.

Lemma flush_insert_chat_msgs env c s u s' :
  flush_insert_chat env c s = inr (u, s') -> db_messages s' = db_messages s.
Proof.
  unfold flush_insert_chat; unfold_monad; cbv beta iota.
  destruct (_ && _); [|discriminate]. intros H; injection H as _ <-. reflexivity.
Qed.

Lemma find_or_create_chat_msgs env pid u s c s' :
  find_or_create_chat env pid u s = inr (c, s') -> db_messages s' = db_messages s.
Proof.
  unfold find_or_create_chat at 1; unfold_monad; cbv beta iota.
  destruct (filter _ (db_properties s)) as [|p [|p' ps]]; try discriminate.
  destruct (prop_lister_id p) as [lister|]; try discriminate.
  destruct (String.eqb (user_id u) lister); try discriminate.
  destruct (filter _ (db_chats s)) as [|c0 [|c' cs]]; try discriminate.
  - destruct (flush_insert_chat _ _ s) as [e|[x s1]] eqn:Fl; [discriminate|].
    intros H; injection H as _ <-. exact (flush_insert_chat_msgs _ _ _ _ _ Fl).
  - intros H; injection H as _ <-. reflexivity.
Qed.

Lemma find_or_create_direct_chat_msgs env u rid s c s' :
  find_or_create_direct_chat env u rid s = inr (c, s') -> db_messages s' = db_messages s.
Proof.
  unfold find_or_create_direct_chat at 1; unfold_monad; cbv beta iota.
  destruct (negb _); [discriminate|].
  destruct (String.eqb (user_id u) rid); [discriminate|].
  destruct (filter _ (db_chats s)) as [|c0 [|c' cs]]; try discriminate.
  - destruct (flush_insert_chat _ _ s) as [e|[x s1]] eqn:Fl; [discriminate|].
    intros H; injection H as _ <-. exact (flush_insert_chat_msgs _ _ _ _ _ Fl).
  - intros H; injection H as _ <-. reflexivity.
Qed.

(** C9: [get_chat_by_id] and [get_chat_messages] return the store they were
    given; the other operations of the service that succeed keep every
    existing message, read flag included ([add_message_to_chat] appends one
    unread message, the find-or-create operations leave the messages as they
    are); only [mark_messages_as_read] sets read flags. *)
Theorem views_read_only (db_sort : list ChatMessage -> list ChatMessage) (cid : UUID) (u : User)
  (page per_page : Z) (s : DB) :
  (forall c s1, get_chat_by_id cid u s = inr (c, s1) -> s1 = s) /\
  (forall r s2, get_chat_messages db_sort cid u page per_page s = inr (r, s2) -> s2 = s) /\
  (forall env req m s3, add_message_to_chat env cid u req s = inr (m, s3) ->
     db_messages s3 = db_messages s ++ [m] /\ is_read m = false) /\
  (forall env pid c s4, find_or_create_chat env pid u s = inr (c, s4) ->
     db_messages s4 = db_messages s) /\
  (forall env rid c s5, find_or_create_direct_chat env u rid s = inr (c, s5) ->
     db_messages s5 = db_messages s).
Proof.
  split; [|split; [|split; [|split]]].
  - intros c s1 G. exact (proj1 (get_chat_by_id_state _ _ _ _ _ G)).
  - intros r s2. unfold get_chat_messages. unfold bind at 1.
    destruct (get_chat_by_id cid u s) as [e|[c s1]] eqn:G; [discriminate|].
    apply get_chat_by_id_state in G as (-> & _).
    unfold_monad. intros H; injection H as _ <-. reflexivity.
  - intros env req m s3 A. apply add_message_to_chat_state in A as (Hm & _ & _ & _ & ->).
    split; [exact Hm|reflexivity].
  - intros env pid c s4. apply find_or_create_chat_msgs.
  - intros env rid c s5. apply find_or_create_direct_chat_msgs.
Qed.

Lemma views_read_only_witness :
  get_chat_messages (fun l => l) "C1" userA 1 50
    (mkDB ["A"; "B"] [] [chat1] [mkChatMessage "M1" "C1" "B" "hi" false 5])
  = inr ([mkChatMessage "M1" "C1" "B" "hi" false 5], 1, 1,
         mkDB ["A"; "B"] [] [chat1] [mkChatMessage "M1" "C1" "B" "hi" false 5])
  /\ mkDB ["A"; "B"] [] [chat1] [mkChatMessage "M1" "C1" "B" "hi" false 5]
     = mkDB ["A"; "B"] [] [chat1] [mkChatMessage "M1" "C1" "B" "hi" false 5].
Proof.
  split; [reflexivity|].
  exact (proj1 (proj2 (views_read_only (fun l => l) "C1" userA 1 50
                  (mkDB ["A"; "B"] [] [chat1] [mkChatMessage "M1" "C1" "B" "hi" false 5])))
           _ _ eq_refl).
Defined.

Lemma insert_by_created_perm b x l : Permutation (x :: l) (insert_by_created b x l).
Proof.
  induction l as [|y l IH]; simpl; [reflexivity|].
  destruct (created_before b x y); [reflexivity|].
  rewrite perm_swap. constructor. exact IH.
Qed.

Lemma insert_by_created_cond b x y :
  created_before b x y = false -> message_created_at y <= message_created_at x.
Proof.
  unfold created_before; destruct b; intros H; [apply Z.leb_gt in H|apply Z.ltb_ge in H]; lia.
Qed.

Lemma insert_by_created_hd b x y l :
  HdRel created_le y l -> message_created_at y <= message_created_at x ->
  HdRel created_le y (insert_by_created b x l).
Proof.
  destruct l as [|z l]; simpl; intros Hd Hyx.
  - constructor; exact Hyx.
  - destruct (created_before b x z); constructor; [exact Hyx|].
    inversion Hd; assumption.
Qed.

Lemma insert_by_created_sorted b x l :
  Sorted created_le l -> Sorted created_le (insert_by_created b x l).
Proof.
  induction l as [|y l IH]; simpl; intros Hs.
  - repeat constructor.
  - destruct (created_before b x y) eqn:C.
    + constructor; [exact Hs|constructor].
      unfold created_before in C; destruct b; unfold created_le; [apply Z.leb_le in C|apply Z.ltb_lt in C]; lia.
    + apply Sorted_inv in Hs as [Hs Hd].
      constructor; [apply IH; exact Hs|].
      apply insert_by_created_hd; [exact Hd|exact (insert_by_created_cond _ _ _ C)].
Qed.

(** Both tie policies are lawful results of [ORDER BY created_at]. *)
Lemma sort_by_created_lawful b l : order_by_created l (sort_by_created b l).
Proof.
  unfold order_by_created, sort_by_created.
  induction l as [|x l [IHp IHs]]; simpl.
  - split; [reflexivity|constructor].
  - split.
    + rewrite <- insert_by_created_perm. constructor. exact IHp.
    + apply insert_by_created_sorted; exact IHs.
Qed.

(** C8, as stated, fails: two messages with the same [created_at] (SQLite's
    CURRENT_TIMESTAMP has one-second resolution) may be returned by the two
    page queries in different lawful orders; with [per_page = 1] page 2 then
    repeats page 1 and the second message is on neither page. *)
Lemma list_messages_pages_cex :
  (forall l, order_by_created l (sort_by_created true l)) /\
  (forall l, order_by_created l (sort_by_created false l)) /\
  get_chat_messages (sort_by_created true) "C1" userA 1 1 db_tie = inr ([msg1], 2, 2, db_tie) /\
  get_chat_messages (sort_by_created false) "C1" userA 2 1 db_tie = inr ([msg1], 2, 2, db_tie).
Proof.
  split; [apply sort_by_created_lawful|].
  split; [apply sort_by_created_lawful|].
  split; reflexivity.
Qed.

Lemma created_le_trans : Relations_1.Transitive created_le.
Proof. unfold Relations_1.Transitive, created_le; intros x y z; lia. Qed.

Lemma sorted_perm_unique l1 : forall l2,
  Sorted created_le l1 -> Sorted created_le l2 -> Permutation l1 l2 ->
  NoDup (map message_created_at l1) -> l1 = l2.
Proof.
  induction l1 as [|a l1 IH]; intros l2 S1 S2 P N.
  - symmetry; apply Permutation_nil; exact P.
  - destruct l2 as [|b l2]; [apply Permutation_sym, Permutation_nil in P; discriminate|].
    assert (Hab : a = b).
    { apply Sorted_StronglySorted in S1, S2; try exact created_le_trans.
      assert (Ha : In a (b :: l2)) by (apply (Permutation_in _ P); left; reflexivity).
      assert (Hb : In b (a :: l1)) by (apply (Permutation_in _ (Permutation_sym P)); left; reflexivity).
      destruct Ha as [Ha|Ha]; [symmetry; exact Ha|].
      destruct Hb as [Hb|Hb]; [exact Hb|].
      apply StronglySorted_inv in S1 as [_ F1]. apply StronglySorted_inv in S2 as [_ F2].
      rewrite Forall_forall in F1, F2.
      pose proof (F1 b Hb) as L1. pose proof (F2 a Ha) as L2. unfold created_le in L1, L2.
      apply (NoDup_map_inj message_created_at (a :: l1)); [exact N|left; reflexivity|right; exact Hb|lia]. }
    subst b. f_equal. apply IH.
    + apply Sorted_inv in S1; apply S1.
    + apply Sorted_inv in S2; apply S2.
    + apply Permutation_cons_inv in P; exact P.
    + simpl in N; apply NoDup_cons_iff in N; apply N.
Qed.

Lemma firstn_app_skipn {A} (n m : nat) (l : list A) :
  firstn n l ++ firstn m (skipn n l) = firstn (n + m) l.
Proof.
  revert l; induction n as [|n IH]; intros l; [reflexivity|].
  destruct l as [|x l]; simpl; [destruct m; reflexivity|]. f_equal; apply IH.
Qed.

Lemma sorted_skipn n l : Sorted created_le l -> Sorted created_le (skipn n l).
Proof.
  revert l; induction n as [|n IH]; intros l S; [exact S|].
  destruct l as [|x l]; [constructor|]. simpl. apply IH. apply Sorted_inv in S; apply S.
Qed.

Lemma sorted_firstn n l : Sorted created_le l -> Sorted created_le (firstn n l).
Proof.
  revert n; induction l as [|x l IH]; intros n S; [destruct n; constructor|].
  destruct n as [|n]; simpl; [constructor|].
  apply Sorted_inv in S as [S Hd]. constructor; [apply IH; exact S|].
  destruct l as [|y l]; destruct n; simpl; constructor. inversion Hd; assumption.
Qed.

Lemma get_chat_messages_items db_sort cid u page per_page s items t p s' :
  get_chat_messages db_sort cid u page per_page s = inr (items, t, p, s') ->
  items = firstn (Z.to_nat per_page)
            (skipn (Z.to_nat ((page - 1) * per_page))
                   (db_sort (filter (fun m => String.eqb (message_chat_id m) cid) (db_messages s)))).
Proof.
  unfold get_chat_messages. unfold bind at 1.
  destruct (get_chat_by_id cid u s) as [e|[c s1]] eqn:G; [discriminate|].
  apply get_chat_by_id_state in G as (-> & _).
  unfold_monad. intros H; injection H as <- _ _ _. reflexivity.
Qed.

(** C8 (amended): whatever lawful order each query of [get_chat_messages]
    gets from the database, every page (any [page], any [per_page]) is in
    non-decreasing [created_at]; when
    the chat's messages have pairwise distinct [created_at], page 1 followed
    by page 2 (same [per_page]) is exactly the first [2 * per_page] messages
    of the chronological order: a contiguous continuation without overlap. *)
Theorem list_messages_pages (db_sort1 db_sort2 : list ChatMessage -> list ChatMessage)
  (cid : UUID) (u : User) (per_page : Z) (s : DB)
  (items1 items2 : list ChatMessage) (t1 p1 t2 p2 : Z) (s1 s2 : DB) :
  (forall l, order_by_created l (db_sort1 l)) ->
  (forall l, order_by_created l (db_sort2 l)) ->
  get_chat_messages db_sort1 cid u 1 per_page s = inr (items1, t1, p1, s1) ->
  get_chat_messages db_sort2 cid u 2 per_page s = inr (items2, t2, p2, s2) ->
  (forall db_sort page per_page' items t p s',
     (forall l, order_by_created l (db_sort l)) ->
     get_chat_messages db_sort cid u page per_page' s = inr (items, t, p, s') ->
     Sorted created_le items) /\
  Sorted created_le items1 /\ Sorted created_le items2 /\
  (NoDup (map message_created_at
                (filter (fun m => String.eqb (message_chat_id m) cid) (db_messages s))) ->
   items1 ++ items2
   = firstn (Z.to_nat per_page + Z.to_nat per_page)
            (db_sort1 (filter (fun m => String.eqb (message_chat_id m) cid) (db_messages s)))).
Proof.
  intros L1 L2 G1 G2.
  split.
  { intros db_sort page per_page' items t p s' L G.
    apply get_chat_messages_items in G. rewrite G.
    apply sorted_firstn, sorted_skipn. apply (L _). }
  apply get_chat_messages_items in G1, G2.
  set (rows := filter (fun m => String.eqb (message_chat_id m) cid) (db_messages s)) in *.
  destruct (L1 rows) as [P1 S1]. destruct (L2 rows) as [P2 S2].
  split; [rewrite G1; apply sorted_firstn, sorted_skipn; exact S1|].
  split; [rewrite G2; apply sorted_firstn, sorted_skipn; exact S2|].
  intros N.
  assert (E : db_sort1 rows = db_sort2 rows).
  { apply sorted_perm_unique; [exact S1|exact S2|rewrite <- P1; exact P2|].
    apply (Permutation_NoDup (Permutation_map message_created_at P1)); exact N. }
  rewrite G1, G2, <- E.
  replace ((1 - 1) * per_page) with 0 by ring.
  replace ((2 - 1) * per_page) with per_page by ring.
  apply firstn_app_skipn.
Qed.

Lemma list_messages_pages_witness :
  Sorted created_le [mkChatMessage "M1" "C1" "A" "hi" false 5].
Proof.
  exact (proj1 (proj2 (list_messages_pages (sort_by_created true) (sort_by_created false) "C1" userA 1
           (mkDB ["A"; "B"] [] [chat1]
                 [mkChatMessage "M1" "C1" "A" "hi" false 5; mkChatMessage "M2" "C1" "B" "yo" false 6])
           [mkChatMessage "M1" "C1" "A" "hi" false 5] [mkChatMessage "M2" "C1" "B" "yo" false 6]
           2 2 2 2 _ _ (sort_by_created_lawful true) (sort_by_created_lawful false)
           eq_refl eq_refl))).
Defined.

(** ** Further properties of the chat service *)

Lemma filter_key_unique {A} (key : A -> string) k l x :
  NoDup (map key l) -> In x l -> key x = k -> filter (fun y => String.eqb (key y) k) l = [x].
Proof.
  induction l as [|y l IH]; simpl; intros Hn Hin Hk; [contradiction|].
  apply NoDup_cons_iff in Hn as [Hnot Hn].
  destruct Hin as [->|Hin].
  - rewrite Hk, String.eqb_refl. f_equal. subst k.
    assert (Hnone : forall z, In z l -> String.eqb (key z) (key x) = false).
    { intros z Hz. apply String.eqb_neq. intros E. apply Hnot. rewrite <- E. apply in_map; exact Hz. }
    clear - Hnone. induction l as [|z l IHl]; simpl; [reflexivity|].
    rewrite Hnone by (left; reflexivity). apply IHl. intros w Hw; apply Hnone; right; exact Hw.
  - destruct (String.eqb (key y) k) eqn:E.
    + exfalso; apply Hnot. apply String.eqb_eq in E. rewrite E, <- Hk. apply in_map; exact Hin.
    + apply IH; auto.
Qed.

Lemma filter_key_none {A} (key : A -> string) k l :
  (forall y, In y l -> key y <> k) -> filter (fun y => String.eqb (key y) k) l = [].
Proof.
  induction l as [|y l IH]; simpl; intros H; [reflexivity|].
  destruct (String.eqb (key y) k) eqn:E.
  - apply String.eqb_eq in E. exfalso; apply (H y); auto.
  - apply IH. intros z Hz; apply H; right; exact Hz.
Qed.

(** [find_or_create_chat] refuses a listing that does not exist
    ([PropertyNotFoundException]), a listing without lister, and a user who
    is the listing's lister ([InvalidRequestException]); the property ids are
    the table's primary key. *)
Theorem find_or_create_chat_errors (env : Env) (pid : UUID) (u : User) (s : DB) :
  ((forall p, In p (db_properties s) -> property_id p <> pid) ->
     find_or_create_chat env pid u s = inl PropertyNotFoundException) /\
  (forall p, NoDup (map property_id (db_properties s)) -> In p (db_properties s) ->
     property_id p = pid ->
     (prop_lister_id p = None \/ prop_lister_id p = Some (user_id u)) ->
     find_or_create_chat env pid u s = inl InvalidRequestException).
Proof.
  split.
  - intros H. unfold find_or_create_chat; unfold_monad.
    rewrite (filter_key_none property_id pid _ H). reflexivity.
  - intros p Hn Hin Hid Hl. unfold find_or_create_chat; unfold_monad.
    rewrite (filter_key_unique property_id pid _ p Hn Hin Hid).
    destruct Hl as [-> | ->]; [reflexivity|]. simpl. rewrite String.eqb_refl. reflexivity.
Qed.

Lemma find_or_create_chat_errors_witness :
  find_or_create_chat (env_ok "C9" 1) "L100" userB db0 = inl InvalidRequestException /\
  find_or_create_chat (env_ok "C9" 1) "L200" userA db0 = inl InvalidRequestException.
Proof.
  assert (Hn : NoDup (map property_id (db_properties db0)))
    by (simpl; constructor; [simpl; intros [H|[]]; discriminate|constructor; [auto|constructor]]).
  split.
  - apply (proj2 (find_or_create_chat_errors (env_ok "C9" 1) "L100" userB db0)
             (mkProperty "L100" (Some "B")) Hn); [left; reflexivity|reflexivity|right; reflexivity].
  - apply (proj2 (find_or_create_chat_errors (env_ok "C9" 1) "L200" userA db0)
             (mkProperty "L200" None) Hn); [right; left; reflexivity|reflexivity|left; reflexivity].
Defined.

(** [find_or_create_direct_chat] refuses an unknown recipient
    ([UserNotFoundException]) and, for a known one, the caller themself
    ([InvalidRequestException]). *)
Theorem find_or_create_direct_chat_errors (env : Env) (u : User) (rid : UUID) (s : DB) :
  (~ In rid (db_users s) -> find_or_create_direct_chat env u rid s = inl UserNotFoundException) /\
  (In rid (db_users s) -> rid = user_id u ->
     find_or_create_direct_chat env u rid s = inl InvalidRequestException).
Proof.
  split.
  - intros H. unfold find_or_create_direct_chat; unfold_monad.
    replace (existsb (String.eqb rid) (db_users s)) with false; [reflexivity|].
    symmetry. apply not_true_iff_false. intros E. apply existsb_exists in E as (x & Hx & Ex).
    apply String.eqb_eq in Ex. subst x. contradiction.
  - intros H ->. unfold find_or_create_direct_chat; unfold_monad.
    rewrite (in_users_existsb _ _ H), String.eqb_refl. reflexivity.
Qed.

Lemma find_or_create_direct_chat_errors_witness :
  find_or_create_direct_chat (env_ok "C9" 1) userA "Z" db0 = inl UserNotFoundException /\
  find_or_create_direct_chat (env_ok "C9" 1) userA "A" db0 = inl InvalidRequestException.
Proof.
  split.
  - apply (proj1 (find_or_create_direct_chat_errors (env_ok "C9" 1) userA "Z" db0)).
    simpl; intros [H|[H|[H|[]]]]; discriminate.
  - apply (proj2 (find_or_create_direct_chat_errors (env_ok "C9" 1) userA "A" db0));
      [left; reflexivity|reflexivity].
Defined.

(** A successful [find_or_create_chat] returns a chat of that listing
    between the caller and the listing's lister (in one slot order or the
    other), stored in the resulting store, which either is the old store or
    has exactly that chat added. *)
Theorem find_or_create_chat_result (env : Env) (pid : UUID) (u : User) (s : DB) (c : Chat)
  (s' : DB) :
  find_or_create_chat env pid u s = inr (c, s') ->
  exists p lister,
    In p (db_properties s) /\ property_id p = pid /\ prop_lister_id p = Some lister
    /\ lister <> user_id u
    /\ chat_property_id c = Some pid
    /\ ((initiator_id c = user_id u /\ property_user_id c = lister)
        \/ (initiator_id c = lister /\ property_user_id c = user_id u))
    /\ In c (db_chats s')
    /\ (s' = s \/ s' = mkDB (db_users s) (db_properties s) (db_chats s ++ [c]) (db_messages s)).
Proof.
  unfold find_or_create_chat at 1; unfold_monad; cbv beta iota.
  destruct (filter (fun p => String.eqb (property_id p) pid) (db_properties s))
    as [|p [|p' ps]] eqn:Hp; try discriminate.
  assert (Hpin : In p (filter (fun p => String.eqb (property_id p) pid) (db_properties s)))
    by (rewrite Hp; left; reflexivity).
  apply filter_In in Hpin as [Hpin Hpid]. apply String.eqb_eq in Hpid.
  destruct (prop_lister_id p) as [lister|] eqn:Hl; try discriminate.
  destruct (String.eqb (user_id u) lister) eqn:Hself; try discriminate.
  assert (Hne : lister <> user_id u)
    by (intros E; rewrite E, String.eqb_refl in Hself; discriminate).
  destruct (filter (listing_chat_match pid (user_id u) lister) (db_chats s))
    as [|c0 [|c' cs]] eqn:Hc; try discriminate.
  - unfold flush_insert_chat; unfold_monad; cbv beta iota.
    destruct (_ && _); [|discriminate].
    intros H; injection H as <- <-.
    exists p, lister. do 5 (split; [assumption || reflexivity|]).
    split; [left; split; reflexivity|].
    split; [simpl; apply in_or_app; right; left; reflexivity|right; reflexivity].
  - intros H; injection H as <- <-.
    assert (Hin : In c0 (filter (listing_chat_match pid (user_id u) lister) (db_chats s)))
      by (rewrite Hc; left; reflexivity).
    apply filter_In in Hin as [Hin Hm].
    unfold listing_chat_match in Hm. apply andb_prop in Hm as [Hpm Hm].
    exists p, lister. do 4 (split; [assumption|]).
    split; [destruct (chat_property_id c0); [apply String.eqb_eq in Hpm; subst; reflexivity
                                             |discriminate]|].
    split; [|split; [exact Hin|left; reflexivity]].
    apply orb_prop in Hm as [Hm|Hm]; apply andb_prop in Hm as [H1 H2];
      apply String.eqb_eq in H1, H2; [left|right]; split; assumption.
Qed.

Lemma find_or_create_chat_result_witness :
  find_or_create_chat (env_ok "C2" 7) "L100" userA db0 = inr (chat1, db0) /\
  chat_property_id chat1 = Some "L100".
Proof.
  split; [reflexivity|].
  destruct (find_or_create_chat_result (env_ok "C2" 7) "L100" userA db0 chat1 db0 eq_refl)
    as (p & lister & H). apply H.
Defined.

(** [get_chat_by_id] returns the stored chat to either of its participants
    (chat ids are the primary key). *)
Theorem get_chat_by_id_participant (cid : UUID) (u : User) (s : DB) (c : Chat) :
  NoDup (map chat_id (db_chats s)) -> In c (db_chats s) -> chat_id c = cid ->
  (user_id u = initiator_id c \/ user_id u = property_user_id c) ->
  get_chat_by_id cid u s = inr (c, s).
Proof.
  intros Hn Hin Hid Hp. unfold get_chat_by_id; unfold_monad.
  rewrite (filter_key_unique chat_id cid _ c Hn Hin Hid).
  destruct Hp as [E|E]; rewrite E, String.eqb_refl; [reflexivity|].
  rewrite orb_true_r. reflexivity.
Qed.

Lemma get_chat_by_id_participant_witness :
  get_chat_by_id "C1" userB db0 = inr (chat1, db0).
Proof.
  apply get_chat_by_id_participant; [simpl; constructor; [auto|constructor]
                                    |left; reflexivity|reflexivity|right; reflexivity].
Defined.

(** When the participation check of [get_chat_by_id] fails, so do
    [add_message_to_chat] and [mark_messages_as_read], with the same
    exception, and the receiver drops any frame from that user: nothing is
    committed or published. *)
Theorem gate_blocks_writes (env : Env) (cid : UUID) (u : User) (s : DB) (e : Exn)
  (req : CreateChatMessageRequest) (raw : RawFrame) :
  get_chat_by_id cid u s = inl e ->
  add_message_to_chat env cid u req s = inl e
  /\ mark_messages_as_read env cid u s = inl e
  /\ receive_frame env cid u s raw = (s, [EvWarning]).
Proof.
  intros G.
  assert (A : forall r, add_message_to_chat env cid u r s = inl e)
    by (intros r; unfold add_message_to_chat, bind at 1; rewrite G; reflexivity).
  split; [apply A|split].
  - unfold mark_messages_as_read, bind at 1. rewrite G. reflexivity.
  - unfold receive_frame. destruct (json_loads raw); [reflexivity|].
    destruct (model_validate j); [reflexivity|]. rewrite A. reflexivity.
Qed.

Lemma gate_blocks_writes_witness :
  receive_frame (env_ok "M1" 5) "C1" userE db0 hi = (db0, [EvWarning]).
Proof.
  apply (gate_blocks_writes (env_ok "M1" 5) "C1" userE db0 UnauthorizedException
           (mkCreateChatMessageRequest "hi") hi).
  reflexivity.
Defined.

(** A failed commit leaves the committed store as it was and publishes
    nothing; a failed publish after a successful commit leaves the message
    committed and unpublished. *)
Theorem receive_frame_io_failures (env : Env) (cid : UUID) (u : User) (s : DB) (raw : RawFrame) :
  (env_commit_ok env = false -> receive_frame env cid u s raw = (s, [EvWarning])) /\
  (env_publish_ok env = false ->
     forall s' ev, receive_frame env cid u s raw = (s', ev) ->
     forall t m, ~ In (EvPublish t m) ev).
Proof.
  split.
  - intros C. destruct (receive_frame_cases env cid u s raw) as [E|(m & s' & E & _ & C')];
      [exact E|congruence].
  - intros P s' ev R t m.
    destruct (receive_frame_cases env cid u s raw) as [E|(m' & s1 & E & _ & _)]; rewrite R in E;
      injection E as _ ->; [simpl; intros [H|[]]; discriminate|].
    rewrite P. simpl. intros [H|[H|[]]]; discriminate.
Qed.

Lemma receive_frame_io_failures_witness :
  receive_frame (mkEnv "M1" 5 5 true false true) "C1" userA db0 hi = (db0, [EvWarning]).
Proof.
  apply (proj1 (receive_frame_io_failures (mkEnv "M1" 5 5 true false true) "C1" userA db0 hi)).
  reflexivity.
Defined.

(** Over a whole session the receiver only appends: the committed messages
    at the end are the initial ones followed by the messages whose commits
    the trace records, in trace order. *)
Theorem websocket_receiver_appends (cid : UUID) (u : User) (frames : list (Env * RawFrame)) :
  forall s, db_messages (fst (websocket_receiver_task cid u s frames))
            = db_messages s ++ committed_messages (snd (websocket_receiver_task cid u s frames)).
Proof.
  induction frames as [|[env raw] rest IH]; intros s; simpl.
  - rewrite app_nil_r; reflexivity.
  - destruct (receive_frame_cases env cid u s raw) as [E|(m & s1 & E & Hm & _)]; rewrite E.
    + specialize (IH s). destruct (websocket_receiver_task cid u s rest) as [s2 ev2].
      simpl in *. exact IH.
    + specialize (IH s1). destruct (websocket_receiver_task cid u s1 rest) as [s2 ev2].
      simpl in *. unfold committed_messages in *. rewrite flat_map_app.
      destruct (env_publish_ok env); simpl; rewrite IH, Hm, <- app_assoc; reflexivity.
Qed.

(** [chat_ws] answers 503 without a Redis client and 401 to an
    unauthenticated caller, accepting neither; an authenticated caller's
    connection is accepted exactly when [get_chat_by_id] lets them in. *)
Theorem chat_ws_setup_accept (cid : UUID) (s : DB) (redis : bool) (cur : option User) :
  (redis = false -> chat_ws_setup redis cur cid s
                    = mkWsSetup false None (Some ("Chat service unavailable", 503))) /\
  (redis = true -> cur = None ->
     chat_ws_setup redis cur cid s = mkWsSetup false None (Some ("Authentication required", 401))) /\
  (forall u, redis = true -> cur = Some u ->
     (ws_accepted (chat_ws_setup redis cur cid s) = true
      <-> exists c, get_chat_by_id cid u s = inr (c, s))).
Proof.
  split; [intros ->; reflexivity|split; [intros -> ->; reflexivity|]].
  intros u -> ->. unfold chat_ws_setup; simpl.
  destruct (get_chat_by_id cid u s) as [e|[c s1]] eqn:G; simpl.
  - split; [discriminate|intros (c & H); discriminate].
  - split; [intros _|reflexivity].
    exists c. pose proof (proj1 (get_chat_by_id_state _ _ _ _ _ G)) as ->. reflexivity.
Qed.

Lemma chat_ws_setup_accept_witness :
  ws_accepted (chat_ws_setup true (Some userA) "C1" db0) = true.
Proof.
  apply (proj2 (proj2 (proj2 (chat_ws_setup_accept "C1" db0 true (Some userA))) userA
                  eq_refl eq_refl)).
  exists chat1. reflexivity.
Defined.




(** [find_or_create_direct_chat] returns a chat without a property between
    the caller and the recipient, in either order, that is in the store it
    leaves; the store is either unchanged or has gained exactly that chat. *)
Theorem find_or_create_direct_chat_result (env : Env) (u : User) (rid : UUID) (s : DB) (c : Chat)
  (s' : DB) :
  find_or_create_direct_chat env u rid s = inr (c, s') ->
  In rid (db_users s) /\ rid <> user_id u
  /\ chat_property_id c = None
  /\ ((initiator_id c = user_id u /\ property_user_id c = rid)
      \/ (initiator_id c = rid /\ property_user_id c = user_id u))
  /\ In c (db_chats s')
  /\ (s' = s \/ s' = mkDB (db_users s) (db_properties s) (db_chats s ++ [c]) (db_messages s)).
Proof.
  unfold find_or_create_direct_chat at 1; unfold_monad; cbv beta iota.
  destruct (existsb (String.eqb rid) (db_users s)) eqn:Hu; [|discriminate]. simpl.
  apply existsb_exists in Hu as (x & Hx & Ex). apply String.eqb_eq in Ex; subst x.
  destruct (String.eqb (user_id u) rid) eqn:Hself; [discriminate|].
  assert (Hne : rid <> user_id u)
    by (intros E; rewrite E, String.eqb_refl in Hself; discriminate).
  destruct (filter (direct_chat_match (user_id u) rid) (db_chats s))
    as [|c0 [|c' cs]] eqn:Hc; try discriminate.
  - unfold flush_insert_chat; unfold_monad; cbv beta iota.
    destruct (_ && _); [|discriminate].
    intros H; injection H as <- <-.
    do 3 (split; [assumption || reflexivity|]).
    split; [left; split; reflexivity|].
    split; [simpl; apply in_or_app; right; left; reflexivity|right; reflexivity].
  - intros H; injection H as <- <-.
    assert (Hin : In c0 (filter (direct_chat_match (user_id u) rid) (db_chats s)))
      by (rewrite Hc; left; reflexivity).
    apply filter_In in Hin as [Hin Hm].
    unfold direct_chat_match in Hm. apply andb_prop in Hm as [Hpm Hm].
    do 2 (split; [assumption|]).
    split; [destruct (chat_property_id c0); [discriminate|reflexivity]|].
    split; [|split; [exact Hin|left; reflexivity]].
    apply orb_prop in Hm as [Hm|Hm]; apply andb_prop in Hm as [H1 H2];
      apply String.eqb_eq in H1, H2; [left|right]; split; assumption.
Qed.

Lemma find_or_create_direct_chat_result_witness :
  exists c s', find_or_create_direct_chat (env_ok "D1" 7) userA "E" db0 = inr (c, s')
               /\ chat_property_id c = None.
Proof.
  exists (mkChat "D1" None "A" "E" 7 7),
    (mkDB ["A"; "B"; "E"] [mkProperty "L100" (Some "B"); mkProperty "L200" None]
          [chat1; mkChat "D1" None "A" "E" 7 7] []).
  split; [vm_compute; reflexivity|].
  apply (find_or_create_direct_chat_result (env_ok "D1" 7) userA "E" db0
           (mkChat "D1" None "A" "E" 7 7)
           (mkDB ["A"; "B"; "E"] [mkProperty "L100" (Some "B"); mkProperty "L200" None]
                 [chat1; mkChat "D1" None "A" "E" 7 7] [])).
  vm_compute; reflexivity.
Defined.

Lemma total_pages_of_cover total per_page :
  0 < per_page -> 0 < total ->
  0 < total_pages_of total per_page
  /\ (total_pages_of total per_page - 1) * per_page < total
  /\ total <= total_pages_of total per_page * per_page.
Proof.
  intros Hpp Ht. unfold total_pages_of.
  rewrite (proj2 (Z.ltb_lt _ _) Hpp), (proj2 (Z.ltb_lt _ _) Ht). simpl.
  pose proof (Z.div_mod (total + per_page - 1) per_page ltac:(lia)) as D.
  pose proof (Z.mod_pos_bound (total + per_page - 1) per_page Hpp) as B.
  set (q := (total + per_page - 1) / per_page) in *.
  set (r := (total + per_page - 1) mod per_page) in *.
  nia.
Qed.

(** [total_pages] is the least number of pages of [per_page] items that
    hold all the items: none for no items, else the ceiling of the quotient
    (the last page is non-empty and the pages before it are full). *)
Theorem total_pages_bounds (total per_page : Z) :
  0 < per_page -> 0 <= total ->
  (total = 0 -> total_pages_of total per_page = 0) /\
  (0 < total -> 0 < total_pages_of total per_page
                /\ (total_pages_of total per_page - 1) * per_page < total
                <= total_pages_of total per_page * per_page).
Proof.
  intros Hpp Ht. split.
  - intros ->. unfold total_pages_of. rewrite andb_false_r. reflexivity.
  - intros Hpos. destruct (total_pages_of_cover total per_page Hpp Hpos) as (H1 & H2 & H3).
    split; [exact H1|split; assumption].
Qed.

Lemma total_pages_bounds_witness :
  total_pages_of 0 20 = 0 /\ (total_pages_of 41 20 - 1) * 20 < 41 <= total_pages_of 41 20 * 20.
Proof.
  split.
  - apply (proj1 (total_pages_bounds 0 20 ltac:(lia) ltac:(lia))). reflexivity.
  - apply (proj2 (total_pages_bounds 41 20 ltac:(lia) ltac:(lia))). lia.
Defined.

Lemma in_firstn_gen {A} n (l : list A) x : In x (firstn n l) -> In x l.
Proof. intros H. rewrite <- (firstn_skipn n l). apply in_or_app; left; exact H. Qed.

Lemma in_skipn_gen {A} n (l : list A) x : In x (skipn n l) -> In x l.
Proof. intros H. rewrite <- (firstn_skipn n l). apply in_or_app; right; exact H. Qed.

Lemma skipn_past_end {A} n (l : list A) : (List.length l <= n)%nat -> skipn n l = [].
Proof.
  revert l; induction n as [|n IH]; intros l H.
  - destruct l; [reflexivity|simpl in H; lia].
  - destruct l as [|x l]; [reflexivity|]. simpl in *. apply IH; lia.
Qed.

Lemma sorted_skipn_gen {A} (R : A -> A -> Prop) n l : Sorted R l -> Sorted R (skipn n l).
Proof.
  revert l; induction n as [|n IH]; intros l S; [exact S|].
  destruct l as [|x l]; [constructor|]. simpl. apply IH. apply Sorted_inv in S; apply S.
Qed.

Lemma sorted_firstn_gen {A} (R : A -> A -> Prop) n l : Sorted R l -> Sorted R (firstn n l).
Proof.
  revert n; induction l as [|x l IH]; intros n S; [destruct n; constructor|].
  destruct n as [|n]; simpl; [constructor|].
  apply Sorted_inv in S as [S Hd]. constructor; [apply IH; exact S|].
  destruct l as [|y l]; destruct n; simpl; constructor. inversion Hd; assumption.
Qed.

(** A page of [get_chat_messages] (for any order the database returns the
    rows in, so long as it returns them all): the store is unchanged,
    [total] counts the chat's messages, the page holds at most [per_page]
    of them, and a page past [total_pages] is empty. *)
Theorem get_chat_messages_page (db_sort : list ChatMessage -> list ChatMessage)
  (cid : UUID) (u : User) (page per_page : Z) (s : DB) items total tp s' :
  (forall rows, Permutation rows (db_sort rows)) -> 1 <= per_page ->
  get_chat_messages db_sort cid u page per_page s = inr (items, total, tp, s') ->
  s' = s
  /\ total = Z.of_nat (List.length (filter (fun m => String.eqb (message_chat_id m) cid)
                                            (db_messages s)))
  /\ tp = total_pages_of total per_page
  /\ Z.of_nat (List.length items) <= per_page
  /\ (forall m, In m items -> In m (db_messages s) /\ message_chat_id m = cid)
  /\ (tp < page -> items = []).
Proof.
  intros HP Hpp. unfold get_chat_messages. unfold bind at 1.
  destruct (get_chat_by_id cid u s) as [e|[c s1]] eqn:G; [discriminate|].
  apply get_chat_by_id_state in G as (-> & _).
  unfold_monad. intros H; injection H as <- <- <- <-.
  set (rows := filter (fun m => String.eqb (message_chat_id m) cid) (db_messages s)).
  split; [reflexivity|split; [reflexivity|split; [reflexivity|]]].
  split; [rewrite length_firstn; lia|split].
  - intros m Hm. apply in_firstn_gen, in_skipn_gen in Hm.
    apply (Permutation_in _ (Permutation_sym (HP rows))) in Hm.
    unfold rows in Hm. apply filter_In in Hm as [Hm Hc]. apply String.eqb_eq in Hc. auto.
  - intros Hlt. rewrite skipn_past_end; [destruct (Z.to_nat per_page); reflexivity|].
    rewrite <- (Permutation_length (HP rows)).
    destruct (List.length rows) as [|n] eqn:Hn; [lia|].
    destruct (total_pages_of_cover (Z.of_nat (S n)) per_page ltac:(lia) ltac:(lia))
      as (_ & _ & H3).
    nia.
Qed.

Lemma get_chat_messages_page_witness :
  get_chat_messages (sort_by_created true) "C1" userA 3 1 db_tie = inr ([], 2, 2, db_tie).
Proof.
  destruct (get_chat_messages (sort_by_created true) "C1" userA 3 1 db_tie)
    as [e|[[[items total] tp] s']] eqn:E; [discriminate|].
  destruct (get_chat_messages_page (sort_by_created true) "C1" userA 3 1 db_tie
              items total tp s' (fun rows => proj1 (sort_by_created_lawful true rows))
              ltac:(lia) E) as (-> & -> & -> & _ & _ & Hend).
  rewrite Hend; [reflexivity|vm_compute; reflexivity].
Defined.

Lemma insert_by_updated_perm x l : Permutation (x :: l) (insert_by_updated x l).
Proof.
  induction l as [|y l IH]; simpl; [reflexivity|].
  destruct (chat_updated_at y <=? chat_updated_at x); [reflexivity|].
  rewrite perm_swap. constructor. exact IH.
Qed.

Lemma insert_by_updated_sorted x l :
  Sorted updated_ge l -> Sorted updated_ge (insert_by_updated x l).
Proof.
  induction l as [|y l IH]; simpl; intros Hs.
  - repeat constructor.
  - destruct (chat_updated_at y <=? chat_updated_at x) eqn:C.
    + constructor; [exact Hs|constructor]. unfold updated_ge. apply Z.leb_le in C; exact C.
    + apply Z.leb_gt in C. apply Sorted_inv in Hs as [Hs Hd].
      constructor; [apply IH; exact Hs|].
      destruct l as [|z l]; simpl.
      * constructor. unfold updated_ge; lia.
      * destruct (chat_updated_at z <=? chat_updated_at x); constructor;
          [unfold updated_ge; lia|inversion Hd; assumption].
Qed.

Lemma sort_by_updated_desc_lawful l : order_by_updated_desc l (sort_by_updated_desc l).
Proof.
  unfold order_by_updated_desc, sort_by_updated_desc.
  induction l as [|x l [IHp IHs]]; simpl.
  - split; [reflexivity|constructor].
  - split.
    + rewrite <- insert_by_updated_perm. constructor. exact IHp.
    + apply insert_by_updated_sorted; exact IHs.
Qed.

(** [get_user_chats] only reads: it returns the store it was given, [total]
    counts the chats where the user is either participant, and a page holds
    at most [per_page] chats, each of them a stored chat of the user, most
    recently updated first. *)
Theorem get_user_chats_page (db_sort : list Chat -> list Chat) (u : User) (page per_page : Z)
  (s : DB) items total tp s' :
  (forall rows, order_by_updated_desc rows (db_sort rows)) ->
  get_user_chats db_sort u page per_page s = inr (items, total, tp, s') ->
  s' = s
  /\ total = Z.of_nat (List.length (filter (fun c => String.eqb (initiator_id c) (user_id u)
                                                      || String.eqb (property_user_id c) (user_id u))
                                            (db_chats s)))
  /\ tp = total_pages_of total per_page
  /\ (List.length items <= Z.to_nat per_page)%nat
  /\ (forall c, In c items ->
        In c (db_chats s) /\ (initiator_id c = user_id u \/ property_user_id c = user_id u))
  /\ Sorted updated_ge items.
Proof.
  intros HP. unfold get_user_chats; unfold_monad.
  intros H; injection H as <- <- <- <-.
  set (rows := filter (fun c => String.eqb (initiator_id c) (user_id u)
                                || String.eqb (property_user_id c) (user_id u)) (db_chats s)).
  destruct (HP rows) as [Hperm Hsort].
  split; [reflexivity|split; [reflexivity|split; [reflexivity|]]].
  split; [rewrite length_firstn; lia|split].
  - intros c Hc. apply in_firstn_gen, in_skipn_gen in Hc.
    apply (Permutation_in _ (Permutation_sym Hperm)) in Hc.
    unfold rows in Hc. apply filter_In in Hc as [Hc Hm]. split; [exact Hc|].
    apply orb_prop in Hm as [Hm|Hm]; apply String.eqb_eq in Hm; auto.
  - apply sorted_firstn_gen, sorted_skipn_gen; exact Hsort.
Qed.

Lemma get_user_chats_page_witness :
  get_user_chats sort_by_updated_desc userA 1 20 db_two
  = inr ([mkChat "D1" None "E" "A" 3 9; chat1], 2, 1, db_two)
  /\ Sorted updated_ge [mkChat "D1" None "E" "A" 3 9; chat1].
Proof.
  split; [vm_compute; reflexivity|].
  destruct (get_user_chats_page sort_by_updated_desc userA 1 20 db_two
              [mkChat "D1" None "E" "A" 3 9; chat1] 2 1 db_two sort_by_updated_desc_lawful
              ltac:(vm_compute; reflexivity)) as (_ & _ & _ & _ & _ & H).
  exact H.
Defined.

(** A failed flush ([IntegrityError], also on a reused primary key) makes
    [add_message_to_chat] and [mark_messages_as_read] raise [ChatException]
    for a caller who passed the participation check, and the receiver then
    drops the frame: nothing is committed or published. *)
Theorem flush_failure_raises (env : Env) (cid : UUID) (u : User) (s : DB) (c : Chat)
  (req : CreateChatMessageRequest) (raw : RawFrame) :
  get_chat_by_id cid u s = inr (c, s) ->
  (env_flush_ok env = false \/ In (env_uuid4 env) (map message_id (db_messages s))) ->
  add_message_to_chat env cid u req s = inl ChatException
  /\ (env_flush_ok env = false -> mark_messages_as_read env cid u s = inl ChatException)
  /\ receive_frame env cid u s raw = (s, [EvWarning]).
Proof.
  intros G Hf.
  assert (A : add_message_to_chat env cid u req s = inl ChatException).
  { unfold add_message_to_chat. unfold bind at 1. rewrite G. unfold_monad; cbv beta iota.
    destruct Hf as [F|Hin].
    - rewrite F. reflexivity.
    - replace (existsb _ (db_messages s)) with true; [rewrite andb_false_r; reflexivity|].
      symmetry. apply existsb_exists. apply in_map_iff in Hin as (m & Hm & Hin).
      exists m; split; [exact Hin|]. simpl. rewrite Hm. apply String.eqb_refl. }
  split; [exact A|split].
  - intros F. unfold mark_messages_as_read. unfold bind at 1. rewrite G.
    unfold_monad; cbv beta iota. rewrite F. reflexivity.
  - unfold receive_frame.
    destruct (json_loads raw); [reflexivity|].
    destruct (model_validate j) as [e|r]; [reflexivity|].
    assert (A' : add_message_to_chat env cid u r s = inl ChatException).
    { unfold add_message_to_chat. unfold bind at 1. rewrite G. unfold_monad; cbv beta iota.
      destruct Hf as [F|Hin].
      - rewrite F. reflexivity.
      - replace (existsb _ (db_messages s)) with true; [rewrite andb_false_r; reflexivity|].
        symmetry. apply existsb_exists. apply in_map_iff in Hin as (m & Hm & Hin).
        exists m; split; [exact Hin|]. simpl. rewrite Hm. apply String.eqb_refl. }
    rewrite A'. reflexivity.
Qed.

Lemma flush_failure_raises_witness :
  add_message_to_chat (env_ok "M1" 6) "C1" userA (mkCreateChatMessageRequest "x") db_tie
  = inl ChatException.
Proof.
  apply (flush_failure_raises (env_ok "M1" 6) "C1" userA db_tie chat1
           (mkCreateChatMessageRequest "x") hi).
  - vm_compute; reflexivity.
  - right. simpl. left. reflexivity.
Defined.

(** Each frame commits at most one message: over a session, the receiver
    commits no more messages than it received frames, and every event
    batch it logs is non-empty (each frame yields a commit or a warning). *)
Theorem websocket_receiver_at_most_one (cid : UUID) (u : User) (frames : list (Env * RawFrame)) :
  forall s, (List.length (committed_messages (snd (websocket_receiver_task cid u s frames)))
             <= List.length frames)%nat
            /\ (List.length frames <= List.length (snd (websocket_receiver_task cid u s frames)))%nat.
Proof.
  induction frames as [|[env raw] rest IH]; intros s; simpl; [lia|].
  destruct (receive_frame_cases env cid u s raw) as [E|(m & s1 & E & _ & _)]; rewrite E.
  - specialize (IH s). destruct (websocket_receiver_task cid u s rest) as [s2 ev2].
    simpl in *. lia.
  - specialize (IH s1). destruct (websocket_receiver_task cid u s1 rest) as [s2 ev2].
    simpl in *. unfold committed_messages in *.
    destruct (env_publish_ok env); simpl in *; lia.
Qed.
